(** * word_language_model/main.py: the training orchestration core

    A shallow embedding of [batchify], [get_batch], [repackage_hidden],
    the offset iteration of [train] and [evaluate], the learning-rate
    handling of [train] and the checkpoint / annealing policy of [main].

    Python integers are [Z], Python floats are IEEE binary64 values
    ([PrimFloat.float]), exceptions are an explicit [result] type, and the
    state that the program mutates (optimizer learning rate, random
    generator, checkpoint file) is threaded explicitly. *)

From Stdlib Require Import ZArith List Lia Bool Uint63 Floats.
From stdpp Require Import base list sorting.
Import ListNotations.

Local Open Scope Z_scope.

#[local] Set Warnings "-register-all".
#[local] Set Warnings "-inexact-float".

(** ** Python exceptions and results *)

Inductive exn : Type :=
  | ZeroDivisionError   (* integer or float division by zero *)
  | ValueError          (* range() arg 3 must not be zero; int(nan) *)
  | OverflowError       (* int(inf); int too large to convert to float *)
  | IndexError          (* raised by the tensor library: index out of range *)
  | RuntimeError.       (* raised by the tensor library *)

Inductive result (A : Type) : Type :=
  | Ok (a : A)
  | Raise (e : exn).
Arguments Ok {A} a.
Arguments Raise {A} e.

#[global] Instance result_ret : MRet result := fun A a => Ok a.
#[global] Instance result_bind : MBind result := fun A B f r =>
  match r with
  | Ok a => f a
  | Raise e => Raise e
  end.

#[global] Instance result_fmap : FMap result := fun A B f r =>
  match r with
  | Ok a => Ok (f a)
  | Raise e => Raise e
  end.

Definition is_ok {A} (r : result A) : bool :=
  match r with Ok _ => true | Raise _ => false end.

(** ** Python integer operations *)

(** [a // b] on Python ints: floor division, [ZeroDivisionError] on [b = 0].
    [Z.div] rounds towards minus infinity, as Python does. *)
Definition py_floordiv (a b : Z) : result Z :=
  if b =? 0 then Raise ZeroDivisionError else Ok (a / b).

(** [range(start, stop, step)] as the list of the values it yields.  The
    length is computed as CPython's [compute_range_length] does. *)
Definition range_length (lo hi step : Z) : Z :=
  if lo <? hi then 1 + (hi - 1 - lo) / step else 0.

Definition py_range (start stop step : Z) : result (list Z) :=
  if step =? 0 then Raise ValueError
  else
    let n := if 0 <? step then range_length start stop step
             else range_length stop start (- step) in
    Ok ((fun k => start + k * step) <$> seqZ 0 n).

(** ** Tensors

    A one-dimensional integer tensor is the list of its elements.  A
    two-dimensional tensor is its shape together with its elements in
    logical row-major order.  Strides are not modelled: [t] produces the
    logical transpose and [contiguous] is then the identity on values. *)

Definition tensor1 := list Z.

Record tensor2 : Type := Tensor2 {
  size0 : nat;
  size1 : nat;
  storage : list Z
}.

Definition wf_tensor2 (m : tensor2) : Prop :=
  length (storage m) = (size0 m * size1 m)%nat.

Definition tensor1_size (data : tensor1) : Z := Z.of_nat (length data).

(** [m[r][c]] *)
Definition get2 (m : tensor2) (r c : nat) : Z :=
  nth (r * size1 m + c) (storage m) 0.

(** [m[r]] and [m[:, c]] as lists *)
Definition row (m : tensor2) (r : nat) : list Z :=
  take (size1 m) (drop (r * size1 m) (storage m)).

Definition column (m : tensor2) (c : nat) : list Z :=
  (fun r => get2 m r c) <$> seq 0 (size0 m).

(** [data.narrow(0, start, length)] on a one-dimensional tensor, with the
    checks the tensor library performs. *)
Definition narrow (data : tensor1) (start len : Z) : result tensor1 :=
  let cur_size := tensor1_size data in
  if len <? 0 then Raise RuntimeError            (* length must be non-negative *)
  else if negb ((- cur_size <=? start) && (start <=? cur_size))
  then Raise IndexError                          (* start out of range *)
  else
    let start := if start <? 0 then start + cur_size else start in
    if negb (start <=? cur_size - len) then Raise RuntimeError
                                                 (* start + length exceeds dimension size *)
    else Ok (take (Z.to_nat len) (drop (Z.to_nat start) data)).

(** Shape inference of [view]: at most one dimension may be [-1], the
    others must be non-negative, and the element count must match. *)
Fixpoint infer_scan (shape : list Z) (dim : nat) (newsize : Z)
    (infer_dim : option nat) : result (Z * option nat) :=
  match shape with
  | [] => Ok (newsize, infer_dim)
  | d :: shape' =>
      if d =? -1 then
        match infer_dim with
        | Some _ => Raise RuntimeError           (* only one dimension can be inferred *)
        | None => infer_scan shape' (S dim) newsize (Some dim)
        end
      else if 0 <=? d then infer_scan shape' (S dim) (newsize * d) infer_dim
      else Raise RuntimeError                    (* invalid shape dimension *)
  end.

Definition infer_size (shape : list Z) (numel : Z) : result (list Z) :=
  '(newsize, infer_dim) ← infer_scan shape 0 1 None;
  if (numel =? newsize)
     || (bool_decide (is_Some infer_dim) && (0 <? newsize) && (numel mod newsize =? 0))
  then
    match infer_dim with
    | Some dim =>
        if newsize =? 0 then Raise RuntimeError  (* the unspecified dimension is ambiguous *)
        else Ok (<[dim := numel / newsize]> shape)
    | None => Ok shape
    end
  else Raise RuntimeError.                       (* shape is invalid for input of this size *)

(** [data.view(d0, d1)] on a contiguous one-dimensional tensor *)
Definition view2 (data : tensor1) (d0 d1 : Z) : result tensor2 :=
  shape ← infer_size [d0; d1] (tensor1_size data);
  match shape with
  | [r; c] => Ok (Tensor2 (Z.to_nat r) (Z.to_nat c) data)
  | _ => Raise RuntimeError
  end.

(** [m.view(-1)] on a contiguous two-dimensional tensor *)
Definition view_flat (m : tensor2) : result tensor1 :=
  shape ← infer_size [-1] (Z.of_nat (length (storage m)));
  Ok (storage m).

(** [m.t()] *)
Definition t (m : tensor2) : tensor2 :=
  Tensor2 (size1 m) (size0 m)
    (flat_map (fun c => (fun r => get2 m r c) <$> seq 0 (size0 m)) (seq 0 (size1 m))).

Definition contiguous (m : tensor2) : tensor2 := m.

(** [m[a:b]]: slicing along dimension 0 with Python's treatment of
    negative and out-of-range bounds. *)
Definition slice0 (m : tensor2) (a b : Z) : tensor2 :=
  let n := Z.of_nat (size0 m) in
  let a := if a <? 0 then a + n else a in
  let b := if b <? 0 then b + n else b in
  let a := if a <? 0 then 0 else if n <=? a then n else a in
  let b := if b <? a then a else if n <=? b then n else b in
  let len := Z.to_nat (b - a) in
  Tensor2 len (size1 m)
    (take (len * size1 m) (drop (Z.to_nat a * size1 m) (storage m))).

(** [len(m)] *)
Definition len2 (m : tensor2) : Z := Z.of_nat (size0 m).

(** ** Command-line arguments *)

Record Args : Type := MkArgs {
  model_is_lstm : bool;        (* args.model == 'LSTM' *)
  nhid : Z;
  nlayers : Z;
  lr : float;
  epochs : Z;
  batch_size : Z;
  bptt : Z;
  rank : Z;
  world_size : Z
}.

(** ** [batchify] *)

Definition batchify (data : tensor1) (bsz : Z) : result tensor2 :=
  (* Work out how cleanly we can divide the dataset into bsz parts. *)
  nbatch ← py_floordiv (tensor1_size data) bsz;
  (* Trim off any extra elements that wouldn't cleanly fit (remainders). *)
  data ← narrow data 0 (nbatch * bsz);
  (* Evenly divide the data across the bsz batches. *)
  data ← view2 data bsz (-1);
  (* .cuda() moves the result to the device; the values are the same *)
  Ok (contiguous (t data)).

(** ** [get_batch] *)

Definition get_batch (args : Args) (source : tensor2) (i : Z)
    : result (tensor2 * tensor1) :=
  let seq_len := Z.min (bptt args) (len2 source - 1 - i) in
  let data := slice0 source i (i + seq_len) in
  target ← view_flat (slice0 source (i + 1) (i + 1 + seq_len));
  Ok (data, target).

(** ** Python float operations *)

Local Open Scope float_scope.

(** [float(z)] for [|z| < 2^63]: the machine conversion, which rounds to
    nearest, ties to even. *)
Definition float_of_small (z : Z) : float :=
  if (z <? 0)%Z then - of_uint63 (Uint63.of_Z (- z))
  else of_uint63 (Uint63.of_Z z).

(** [float(z)]: the nearest binary64 value, [OverflowError] when there is
    none. *)
Definition py_float_of_int (z : Z) : result float :=
  if (Z.abs z <? 2 ^ 63)%Z then Ok (float_of_small z)
  else
    let f := SF2Prim (binary_normalize prec emax z 0 false) in
    if is_infinity f then Raise OverflowError else Ok f.

(** [int(f)]: truncation towards zero. *)
Definition py_int (f : float) : result Z :=
  match Prim2SF f with
  | S754_nan => Raise ValueError
  | S754_infinity _ => Raise OverflowError
  | S754_zero _ => Ok 0%Z
  | S754_finite s m e =>
      let a := match e with
               | Zneg p => Z.shiftr (Zpos m) (Zpos p)
               | _ => Z.shiftl (Zpos m) e
               end in
      Ok (if s then (- a)%Z else a)
  end.

(** [a / b] on floats *)
Definition py_truediv (a b : float) : result float :=
  if b =? 0 then Raise ZeroDivisionError else Ok (a / b).

(** [not x] for a float [x] *)
Definition py_not_float (x : float) : bool := x =? 0.

(** [not x] for [x] either [None] or a float *)
Definition py_not_opt_float (x : option float) : bool :=
  match x with
  | None => true
  | Some f => py_not_float f
  end.

Local Close Scope float_scope.

(** ** Hidden state and [repackage_hidden] *)

(** The backward graph hanging off a tensor: a node and the nodes its
    backward pass continues into. *)
Inductive grad_node : Type :=
  | GradNode (next_functions : list grad_node).

Fixpoint graph_depth (n : grad_node) : nat :=
  match n with
  | GradNode next => S (foldr (fun m d => Nat.max (graph_depth m) d) 0%nat next)
  end.

(** A float tensor as autograd sees it: its values and its history. *)
Record atensor : Type := ATensor {
  shape : list Z;
  values : list float;
  requires_grad : bool;
  grad_fn : option grad_node
}.

(** [x.detach()]: the same values, no history. *)
Definition detach (x : atensor) : atensor :=
  ATensor (shape x) (values x) false None.

(** A hidden state is a tensor or a tuple of hidden states. *)
Inductive hidden : Type :=
  | HTensor (x : atensor)
  | HTuple (hs : list hidden).

Fixpoint repackage_hidden (h : hidden) : hidden :=
  match h with
  | HTensor x => HTensor (detach x)
  | HTuple hs => HTuple (map repackage_hidden hs)
  end.

(** The numeric content of a hidden state, with its structure. *)
Inductive hvalues : Type :=
  | VTensor (sh : list Z) (vs : list float)
  | VTuple (hs : list hvalues).

Fixpoint hidden_values (h : hidden) : hvalues :=
  match h with
  | HTensor x => VTensor (shape x) (values x)
  | HTuple hs => VTuple (map hidden_values hs)
  end.

(** No tensor of the state has a backward history. *)
Fixpoint no_history (h : hidden) : bool :=
  match h with
  | HTensor x => negb (requires_grad x) && bool_decide (grad_fn x = None)
  | HTuple hs => forallb no_history hs
  end.

(** Depth of the deepest backward graph reachable from the state. *)
Fixpoint history_depth (h : hidden) : nat :=
  match h with
  | HTensor x => from_option graph_depth 0%nat (grad_fn x)
  | HTuple hs => foldr (fun h' d => Nat.max (history_depth h') d) 0%nat hs
  end.

(** [weight.new_zeros(nlayers, bsz, nhid)] *)
Definition new_zeros (d0 d1 d2 : Z) : result atensor :=
  if (d0 <? 0) || (d1 <? 0) || (d2 <? 0) then Raise RuntimeError
  else Ok (ATensor [d0; d1; d2] (replicate (Z.to_nat (d0 * d1 * d2)) 0%float) false None).

Definition init_hidden (args : Args) (bsz : Z) : result hidden :=
  if model_is_lstm args then
    h ← new_zeros (nlayers args) bsz (nhid args);
    c ← new_zeros (nlayers args) bsz (nhid args);
    Ok (HTuple [HTensor h; HTensor c])
  else
    h ← new_zeros (nlayers args) bsz (nhid args);
    Ok (HTensor h).

(** ** The Distributed Step Partitioner

    The offsets [range(W * rank, rows - 1, W * world_size)] that [train] and
    [evaluate] iterate, as a function of the window size [W]. *)
Definition partition_offsets (W rnk ws : Z) (rows : Z) : result (list Z) :=
  py_range (W * rnk) (rows - 1) (W * ws).

(** A [for] loop over a list whose body may raise; the states after each
    iteration are kept, in order. *)
Fixpoint for_each {S : Type} (body : S → Z → result S) (s : S) (offsets : list Z)
    : result (list S) :=
  match offsets with
  | [] => Ok []
  | i :: offsets' =>
      s' ← body s i;
      rest ← for_each body s' offsets';
      Ok (s' :: rest)
  end.

(** ** Training and evaluation

    The recurrent model, the loss and the random generator are external.
    [forward net training data hidden] is [model(data, hidden)] in training
    or evaluation mode, [criterion] is the mean cross-entropy of the
    flattened output against the targets, as a float, and [sgd_step] is one
    update of the parameters: [zero_grad], the forward pass and its loss,
    [backward], gradient clipping and [optimizer.step()] at the optimizer's
    current learning rate.  [np_random] and [np_normal] are numpy's global
    generator.

    The [print]s are left out, and with them what only they compute: the
    running [total_loss] of [train], [batch % args.log_interval] and
    [math.exp] of a loss (which raise for a zero interval and for a loss
    above 709.78); a call that prints without raising behaves as modelled. *)

Section Orchestration.

Context {Model Output Rng : Type}.
Variable forward : Model → bool → tensor2 → hidden → Output * hidden.
Variable criterion : Output → tensor1 → float.
Variable sgd_step : Model → float → tensor2 → hidden → tensor1 → Model.
Variable np_random : Rng → float * Rng.
Variable np_normal : float → float → Rng → float * Rng.

(** What the program mutates. *)
Record world : Type := World {
  opt_lr : float;            (* optimizer.param_groups[0]['lr'] *)
  gen : Rng;                 (* numpy's generator state *)
  net : Model                (* the model's parameters *)
}.

(** *** [evaluate] *)

Definition evaluate_step (args : Args) (data_source : tensor2) (mdl : Model)
    (st : float * hidden) (i : Z) : result (float * hidden) :=
  let '(total_loss, hid) := st in
  '(data, targets) ← get_batch args data_source i;
  let '(output, hid) := forward mdl false data hid in
  n ← py_float_of_int (len2 data);
  let total_loss := (total_loss + n * criterion output targets)%float in
  Ok (total_loss, repackage_hidden hid).

Definition evaluate (args : Args) (data_source : tensor2) (mdl : Model)
    (eval_batch_size : Z) : result float :=
  let total_loss := 0%float in
  hid ← init_hidden args eval_batch_size;
  offsets ← py_range (bptt args * rank args) (len2 data_source - 1)
                     (bptt args * world_size args);
  states ← for_each (evaluate_step args data_source mdl) (total_loss, hid) offsets;
  let total_loss := fst (List.last states (total_loss, hid)) in
  d ← py_float_of_int (len2 data_source - 1);
  w ← py_float_of_int (world_size args);
  q ← py_truediv d w;
  py_truediv total_loss q.

(** *** [train] *)

(** The loop state of [train]: the world and the carried hidden state. *)
Definition train_step (args : Args) (train_data : tensor2)
    (st : world * hidden) (i : Z) : result (world * hidden) :=
  let '(w, hid) := st in
  '(data, targets) ← get_batch args train_data i;
  (* Starting each batch, we detach the hidden state from how it was
     previously produced. *)
  let hid := repackage_hidden hid in
  let '(output, hid') := forward (net w) true data hid in
  let net' := sgd_step (net w) (opt_lr w) data hid targets in
  Ok (World (opt_lr w) (gen w) net', hid').

(** The draws at the entry of [train]: the effective window and the
    sequence length. *)
Definition draw_bptt (args : Args) (g : Rng) : result (float * Rng) :=
  let '(u, g) := np_random g in
  nominal ← py_float_of_int (bptt args);
  Ok (if (u <? 0.95)%float then nominal else (nominal / 2)%float, g).

Definition draw_seq_len (bptt_eff : float) (g : Rng) : result (Z * Rng) :=
  let '(x, g) := np_normal bptt_eff 5%float g in
  (* Prevent excessively small or negative sequence lengths *)
  n ← py_int x;
  Ok (Z.max 5 n, g).

(** [train] returns nothing; here it returns the world it leaves behind
    and, for the statement of properties, the world after each iteration
    of its loop. *)
Definition train (args : Args) (w : world) (train_data : tensor2)
    : result (world * list world) :=
  '(bptt_eff, g) ← draw_bptt args (gen w);
  '(seq_len, g) ← draw_seq_len bptt_eff g;
  let lr2 := opt_lr w in
  s ← py_float_of_int seq_len;
  b ← py_float_of_int (bptt args);
  scaled ← py_truediv (lr2 * s)%float b;
  let w := World scaled g (net w) in
  hid ← init_hidden args (batch_size args);
  offsets ← py_range (bptt args * rank args) (len2 train_data - 1)
                     (bptt args * world_size args);
  states ← for_each (train_step args train_data) (w, hid) offsets;
  let w := fst (List.last states (w, hid)) in
  Ok (World lr2 (gen w) (net w), fst <$> states).

(** *** The epoch loop of [main] *)

(** What the epoch loop owns besides the world: [lr], [best_val_loss],
    the checkpoint file and, for the statement of properties, the epochs
    at which the file was written. *)
Record controller : Type := Controller {
  c_lr : float;
  best_val_loss : option float;
  save_file : option Model;
  writes : list Z
}.

(** Lines 225-232: save the model if the validation loss is the best seen
    so far, otherwise anneal the learning rate. *)
Definition checkpoint_or_anneal (epoch : Z) (val_loss : float)
    (st : controller * world) : controller * world :=
  let '(c, w) := st in
  if py_not_opt_float (best_val_loss c)
     || match best_val_loss c with
        | Some best => (val_loss <? best)%float
        | None => false
        end
  then
    (Controller (c_lr c) (Some val_loss) (Some (net w)) (writes c ++ [epoch]), w)
  else
    let lr' := (c_lr c / 4)%float in
    (Controller lr' (best_val_loss c) (save_file c) (writes c),
     World lr' (gen w) (net w)).

Definition epoch_body (args : Args) (train_data val_data : tensor2)
    (eval_batch_size : Z) (st : controller * world) (epoch : Z)
    : result (controller * world) :=
  let '(c, w) := st in
  '(w, _) ← train args w train_data;
  val_loss ← evaluate args val_data (net w) eval_batch_size;
  Ok (checkpoint_or_anneal epoch val_loss (c, w)).

Definition main_loop (args : Args) (train_data val_data : tensor2)
    (g : Rng) (mdl : Model) : result (controller * world) :=
  let eval_batch_size := 10 in
  let c := Controller (lr args) None None [] in
  let w := World (lr args) g mdl in
  epochs_range ← py_range 1 (epochs args + 1) 1;
  states ← for_each (epoch_body args train_data val_data eval_batch_size)
                    (c, w) epochs_range;
  Ok (List.last states (c, w)).

(** The policy alone, run over the validation losses of successive
    epochs, numbered from [epoch]. *)
Fixpoint run_policy (epoch : Z) (losses : list float)
    (st : controller * world) : list (controller * world) :=
  match losses with
  | [] => []
  | v :: losses' =>
      let st' := checkpoint_or_anneal epoch v st in
      st' :: run_policy (epoch + 1) losses' st'
  end.

(** The windows of one evaluation pass, each with its length
    [min(bptt, rows - 1 - i)] and its mean loss; the hidden state is
    carried from window to window. *)
Fixpoint window_losses (args : Args) (data_source : tensor2) (mdl : Model)
    (hid : hidden) (offsets : list Z) : list (Z * float) :=
  match offsets with
  | [] => []
  | i :: offsets' =>
      let seq_len := Z.min (bptt args) (len2 data_source - 1 - i) in
      let data := slice0 data_source i (i + seq_len) in
      let targets := storage (slice0 data_source (i + 1) (i + 1 + seq_len)) in
      let '(output, hid') := forward mdl false data hid in
      (seq_len, criterion output targets)
        :: window_losses args data_source mdl (repackage_hidden hid') offsets'
  end.

(** The sum [evaluate] accumulates, in the order it accumulates it. *)
Definition weighted_total (ws : list (Z * float)) : float :=
  fold_left (fun acc '(n, loss) => (acc + float_of_small n * loss)%float) ws 0%float.

End Orchestration.

(** The offsets of one rank, for a positive window and world size: what
    [partition_offsets] returns then. *)
Definition rank_offsets (W ws rows : Z) (r : Z) : list Z :=
  (fun k => W * r + k * (W * ws))
    <$> seqZ 0 (range_length (W * r) (rows - 1) (W * ws)).

(** ** Example inputs *)

(** The batched alphabet of the comment above [batchify]. *)
Definition alphabet_stream : tensor2 :=
  Tensor2 6 4 [0; 6; 12; 18; 1; 7; 13; 19; 2; 8; 14; 20;
               3; 9; 15; 21; 4; 10; 16; 22; 5; 11; 17; 23].

(** An LSTM with one layer of two units, [--lr 20 --epochs 3 --batch_size 4
    --bptt 2], a single worker. *)
Definition example_args : Args :=
  MkArgs true 2 1 20%float 3 4 2 0 1.

(** ** Rounding to the nearest integer

    The spec's [round]: to nearest, ties to even, as Python's [round] on a
    float.  The code does not use it; it is here to compare [int] with. *)
Definition spec_round (f : float) : result Z :=
  match Prim2SF f with
  | S754_nan => Raise ValueError
  | S754_infinity _ => Raise OverflowError
  | S754_zero _ => Ok 0
  | S754_finite s m e =>
      let a := match e with
               | Zneg p =>
                   let q := Z.shiftr (Zpos m) (Zpos p) in
                   let r := Zpos m - Z.shiftl q (Zpos p) in
                   let half := Z.shiftl 1 (Zpos p - 1) in
                   if (half <? r) || ((r =? half) && Z.odd q) then q + 1 else q
               | _ => Z.shiftl (Zpos m) e
               end in
      Ok (if s then - a else a)
  end.

(** ** A recording model

    A stand-in for the external parts, to run the program on: the random
    generator is a tape of draws ([np_normal] scales and shifts a standard
    normal draw), the model is the log of the optimizer steps taken, each
    with its input window and the learning rate in force, and the loss is a
    function of the number of steps taken so far. *)

Definition tape := list float.

Definition tape_random (g : tape) : float * tape :=
  match g with
  | [] => (0%float, [])
  | u :: g' => (u, g')
  end.

Definition tape_normal (loc scale : float) (g : tape) : float * tape :=
  match g with
  | [] => (loc, [])
  | z :: g' => ((loc + scale * z)%float, g')
  end.

Definition step_log := list (tensor2 * float).

Definition log_forward (mdl : step_log) (training : bool) (data : tensor2)
    (hid : hidden) : nat * hidden :=
  (length mdl, hid).

Definition log_criterion (loss_of : nat → float) (output : nat)
    (targets : tensor1) : float :=
  loss_of output.

Definition log_sgd_step (mdl : step_log) (lr_now : float) (data : tensor2)
    (hid : hidden) (targets : tensor1) : step_log :=
  mdl ++ [(data, lr_now)].

(** A stream of one column whose token at row [r] is [r], so that the
    first token of a window is its offset. *)
Definition index_stream (rows : nat) : tensor2 :=
  Tensor2 rows 1 (seqZ 0 (Z.of_nat rows)).

(** The first token of each window the optimizer stepped on. *)
Definition window_offsets (mdl : step_log) : list Z :=
  (fun e => nth 0 (storage (fst e)) (-1)) <$> mdl.

(** ** Example runs *)

(** [--bptt 36], otherwise as [example_args]. *)
Definition args_bptt36 : Args :=
  MkArgs true 2 1 20%float 3 4 36 0 1.

(** One call of [train] on a stream of 100 rows, with the uniform draw
    0.99 (so the short window is chosen) and the standard normal draw
    0.14. *)
Definition short_window_run : result (world * list world) :=
  train log_forward log_sgd_step tape_random tape_normal
    args_bptt36 (World 20%float [0.99; 0.14]%float []) (index_stream 100).

(** A loss that is 0 after the first epoch of three steps, 1 after the
    second, 2 after the third. *)
Definition loss_by_epoch (steps : nat) : float :=
  float_of_small (Z.of_nat steps / 3 - 1).

(** Three epochs of [main] on the batched alphabet, with that loss. *)
Definition rising_loss_run : result (controller * world) :=
  main_loop log_forward (log_criterion loss_by_epoch) log_sgd_step
    tape_random tape_normal
    example_args alphabet_stream alphabet_stream
    [0.5; 1; 0.5; 1; 0.5; 1]%float [].

(** The model after [k] optimizer steps of that run, as far as the loss
    can tell. *)
Definition after_steps (k : nat) : step_log :=
  replicate k (alphabet_stream, 70%float).

(** Validation losses that fall from each epoch to the next. *)
Definition strictly_decreasing (losses : list float) : Prop :=
  ∀ k a b, losses !! k = Some a → losses !! S k = Some b → (b <? a)%float = true.

(** Validation losses that rise from each epoch to the next. *)
Definition strictly_increasing (losses : list float) : Prop :=
  ∀ k a b, losses !! k = Some a → losses !! S k = Some b → (a <? b)%float = true.

(** A rate after [k] annealings. *)
Definition annealed (k : nat) (rate : float) : float :=
  Nat.iter k (fun x => (x / 4)%float) rate.

(** What the policy has done after an epoch: the epochs at which the
    checkpoint was written, [lr], and the optimizer's rate. *)
Definition policy_outcome {Model Rng : Type}
    (st : controller (Model := Model) * world (Model := Model) (Rng := Rng))
    : list Z * float * float :=
  (writes (fst st), c_lr (fst st), opt_lr (snd st)).

(** ** The windows of a pass *)

(** [min(args.bptt, len(source) - 1 - i)], the [seq_len] of [get_batch]. *)
Definition window_length (W rows i : Z) : Z := Z.min W (rows - 1 - i).

(** [[get_batch(source, i) for i in offsets]] *)
Fixpoint windows_at (args : Args) (source : tensor2) (offsets : list Z)
    : result (list (tensor2 * tensor1)) :=
  match offsets with
  | [] => Ok []
  | i :: offsets' =>
      window ← get_batch args source i;
      rest ← windows_at args source offsets';
      Ok (window :: rest)
  end.

Definition sumZ (l : list Z) : Z := foldr Z.add 0 l.

(** ** [main] *)

Section Program.

Context {Model Output Rng : Type}.
Variable forward : Model → bool → tensor2 → hidden → Output * hidden.
Variable criterion : Output → tensor1 → float.
Variable sgd_step : Model → float → tensor2 → hidden → tensor1 → Model.
Variable np_random : Rng → float * Rng.
Variable np_normal : float → float → Rng → float * Rng.

(** [main], from the three token sequences of the corpus, the generator
    and the freshly built model: the streams are batched, the epoch loop
    runs, and the model as the last epoch left it is evaluated on the test
    stream.  Seeding, device placement and the set-up of the process group
    are outside the model. *)
Definition main (args : Args) (corpus_train corpus_valid corpus_test : tensor1)
    (g : Rng) (mdl : Model) : result (controller * world * float) :=
  let eval_batch_size := 10 in
  train_data ← batchify corpus_train (batch_size args);
  val_data ← batchify corpus_valid eval_batch_size;
  test_data ← batchify corpus_test eval_batch_size;
  '(c, w) ← main_loop forward criterion sgd_step np_random np_normal
              args train_data val_data g mdl;
  (* Run on test data. *)
  test_loss ← evaluate forward criterion args test_data (net w) eval_batch_size;
  Ok (c, w, test_loss).

End Program.

(** * Properties *)

(** ** Lists laid out as grids *)

Section Grid.
Context {A : Type}.

Lemma length_grid (f : nat → nat → A) (cols s rows : nat) :
  length (flat_map (fun i => f i <$> seq 0 cols) (seq s rows)) = (rows * cols)%nat.
Proof.
  revert s. induction rows as [|rows IH]; intros s; simpl; [done|].
  rewrite length_app, length_fmap, length_seq, IH. done.
Qed.

Lemma nth_grid (f : nat → nat → A) (d : A) (rows cols i j : nat) :
  (i < rows)%nat → (j < cols)%nat →
  nth (i * cols + j) (flat_map (fun i => f i <$> seq 0 cols) (seq 0 rows)) d = f i j.
Proof.
  induction rows as [|rows IH]; intros Hi Hj; [lia|].
  rewrite seq_S, flat_map_app. simpl. rewrite app_nil_r.
  destruct (decide (i < rows)%nat) as [Hlt|Hge].
  - rewrite app_nth1 by (rewrite length_grid; nia). by apply IH.
  - assert (i = rows) as -> by lia.
    rewrite app_nth2 by (rewrite length_grid; lia).
    rewrite length_grid.
    replace (rows * cols + j - rows * cols)%nat with j by lia.
    rewrite nth_lookup, list_lookup_fmap, lookup_seq_lt by done. done.
Qed.

Lemma flat_map_ext_seq {B : Type} (f g : nat → list B) (s n : nat) :
  (∀ i, (s ≤ i < s + n)%nat → f i = g i) →
  flat_map f (seq s n) = flat_map g (seq s n).
Proof.
  revert s. induction n as [|n IH]; intros s Hfg; [done|].
  simpl. rewrite (Hfg s) by lia. f_equal. apply IH. intros i Hi. apply Hfg. lia.
Qed.

Lemma fmap_nth_seq (l : list A) (d : A) (s n : nat) :
  (s + n ≤ length l)%nat →
  (fun r => nth (s + r) l d) <$> seq 0 n = take n (drop s l).
Proof.
  intros Hlen. apply list_eq. intros k.
  rewrite list_lookup_fmap.
  destruct (decide (k < n)%nat) as [Hk|Hk].
  - rewrite lookup_seq_lt, lookup_take_lt, lookup_drop by done. simpl.
    destruct (lookup_lt_is_Some_2 l (s + k)) as [x Hx]; [lia|].
    by rewrite Hx, (nth_lookup_Some _ _ _ _ Hx).
  - rewrite lookup_seq_ge, lookup_take_ge by lia. done.
Qed.

Lemma grid_of_list (l : list A) (d : A) (n B : nat) :
  length l = (B * n)%nat →
  flat_map (fun c => (fun r => nth (c * n + r) l d) <$> seq 0 n) (seq 0 B) = l.
Proof.
  revert l. induction B as [|B IH]; intros l Hl.
  - by destruct l.
  - rewrite seq_S, flat_map_app. simpl. rewrite app_nil_r.
    transitivity (take (B * n) l ++ drop (B * n) l); [|apply take_drop].
    f_equal.
    + rewrite <-(IH (take (B * n) l)) by (rewrite length_take; lia).
      apply flat_map_ext_seq. intros c Hc.
      apply list_fmap_ext. intros ? r Hr%lookup_seq.
      rewrite !nth_lookup, lookup_take_lt by nia. done.
    + rewrite fmap_nth_seq by lia.
      apply take_ge. rewrite length_drop. lia.
Qed.
End Grid.

(** ** The tensor operations on the inputs [batchify] gives them *)

Lemma narrow_prefix (data : tensor1) (len : Z) :
  0 ≤ len ≤ tensor1_size data →
  narrow data 0 len = Ok (take (Z.to_nat len) data).
Proof.
  intros Hlen. unfold narrow.
  destruct (Z.ltb_spec len 0); [lia|].
  destruct (Z.leb_spec (- tensor1_size data) 0); [|unfold tensor1_size in *; lia].
  destruct (Z.leb_spec 0 (tensor1_size data)); [|lia]. simpl.
  destruct (Z.leb_spec 0 (tensor1_size data - len)); [|lia]. done.
Qed.

Lemma view2_infer_columns (data : tensor1) (B n : Z) :
  1 ≤ B → 0 ≤ n → tensor1_size data = n * B →
  view2 data B (-1) = Ok (Tensor2 (Z.to_nat B) (Z.to_nat n) data).
Proof.
  intros HB Hn Hsize. unfold view2, infer_size. cbn [infer_scan].
  destruct (Z.eqb_spec B (-1)); [lia|].
  destruct (Z.leb_spec 0 B); [|lia]. rewrite Z.eqb_refl, Z.mul_1_l.
  cbn [mbind result_bind].
  rewrite Hsize, Z.mod_mul, Z.div_mul by lia.
  destruct (Z.ltb_spec 0 B); [|lia].
  rewrite (bool_decide_eq_true_2 _ (mk_is_Some _ _ eq_refl)).
  rewrite orb_true_r. destruct (Z.eqb_spec B 0); [lia|]. done.
Qed.

Lemma column_t (m : tensor2) (c : nat) :
  (c < size0 m)%nat →
  column (t m) c = (fun r => nth (c * size1 m + r) (storage m) 0) <$> seq 0 (size1 m).
Proof.
  intros Hc. unfold column. simpl.
  apply list_fmap_ext. intros ? r Hr%lookup_seq.
  unfold get2 at 1. simpl. rewrite nth_grid by lia. done.
Qed.

Lemma columns_of_t (m : tensor2) :
  wf_tensor2 m →
  flat_map (column (t m)) (seq 0 (size0 m)) = storage m.
Proof.
  intros Hwf.
  rewrite (flat_map_ext_seq _
    (fun c => (fun r => nth (c * size1 m + r) (storage m) 0) <$> seq 0 (size1 m))).
  - by apply grid_of_list.
  - intros c Hc. apply column_t. lia.
Qed.

Lemma wf_t (m : tensor2) : wf_tensor2 (t m).
Proof. unfold wf_tensor2. simpl. by rewrite length_grid. Qed.

(** ** [batchify] *)

(** For a positive batch size [batchify] always returns: the trimmed data,
    viewed as [bsz] rows, transposed. *)
Lemma batchify_ok (data : tensor1) (B : Z) :
  1 ≤ B →
  let n := tensor1_size data / B in
  batchify data B
  = Ok (t (Tensor2 (Z.to_nat B) (Z.to_nat n) (take (Z.to_nat (n * B)) data))).
Proof.
  intros HB n.
  assert (0 ≤ tensor1_size data) as HL by (unfold tensor1_size; lia).
  assert (0 ≤ n) as Hn by (apply Z.div_pos; lia).
  pose proof (Z.div_mod (tensor1_size data) B ltac:(lia)) as Hdm.
  pose proof (Z.mod_pos_bound (tensor1_size data) B ltac:(lia)) as Hmod.
  fold n in Hdm.
  unfold batchify, py_floordiv. destruct (Z.eqb_spec B 0); [lia|].
  cbn [mbind result_bind]. fold n.
  rewrite narrow_prefix by nia. cbn [mbind result_bind].
  rewrite (view2_infer_columns _ B n); [done..|].
  unfold tensor1_size in *. rewrite length_take. lia.
Qed.

(** C1. For a token sequence of length [L] and a batch width [B] with
    [1 <= B <= L], [batchify] returns a matrix of shape [[L / B, B]] whose
    [B] columns, concatenated in column order, are the first [B * (L / B)]
    tokens of the sequence; the [L mod B] trailing tokens are dropped. *)
Theorem batchify_columns (data : tensor1) (B : Z) :
  1 ≤ B ≤ tensor1_size data →
  let L := tensor1_size data in
  ∃ m : tensor2,
    batchify data B = Ok m
    ∧ Z.of_nat (size0 m) = L / B
    ∧ Z.of_nat (size1 m) = B
    ∧ wf_tensor2 m
    ∧ flat_map (column m) (seq 0 (size1 m)) = take (Z.to_nat (B * (L / B))) data
    ∧ data = flat_map (column m) (seq 0 (size1 m)) ++ drop (Z.to_nat (B * (L / B))) data
    ∧ Z.of_nat (length (drop (Z.to_nat (B * (L / B))) data)) = L mod B.
Proof.
  intros HB L.
  assert (0 ≤ L / B) as Hn by (apply Z.div_pos; lia).
  assert (L = B * (L / B) + L mod B) as Hdm by (apply Z.div_mod; lia).
  assert (0 ≤ L mod B < B) as Hmod by (apply Z.mod_pos_bound; lia).
  set (data1 := take (Z.to_nat (L / B * B)) data).
  set (m0 := Tensor2 (Z.to_nat B) (Z.to_nat (L / B)) data1).
  assert (wf_tensor2 m0) as Hwf.
  { unfold wf_tensor2, m0, data1. simpl. rewrite length_take.
    unfold L, tensor1_size in *. nia. }
  assert (flat_map (column (t m0)) (seq 0 (Z.to_nat B)) = data1) as Hcols.
  { exact (columns_of_t _ Hwf). }
  exists (t m0).
  split; [|split; [|split; [|split; [|split; [|split]]]]].
  - rewrite batchify_ok by lia. done.
  - simpl. lia.
  - simpl. lia.
  - apply wf_t.
  - simpl. rewrite Hcols. unfold data1. f_equal. lia.
  - simpl. rewrite Hcols. unfold data1.
    replace (L / B * B) with (B * (L / B)) by lia. by rewrite take_drop.
  - rewrite length_drop. unfold L, tensor1_size in *. lia.
Qed.

(** The example in the comment above [batchify]: 24 letters, batch size 4. *)
Lemma batchify_columns_witness :
  1 ≤ 4 ≤ tensor1_size (seqZ 0 24)
  ∧ ∃ m : tensor2,
      batchify (seqZ 0 24) 4 = Ok m
      ∧ Z.of_nat (size0 m) = tensor1_size (seqZ 0 24) / 4
      ∧ Z.of_nat (size1 m) = 4
      ∧ wf_tensor2 m
      ∧ flat_map (column m) (seq 0 (size1 m)) = take (Z.to_nat (4 * (tensor1_size (seqZ 0 24) / 4))) (seqZ 0 24)
      ∧ seqZ 0 24 = flat_map (column m) (seq 0 (size1 m))
                    ++ drop (Z.to_nat (4 * (tensor1_size (seqZ 0 24) / 4))) (seqZ 0 24)
      ∧ Z.of_nat (length (drop (Z.to_nat (4 * (tensor1_size (seqZ 0 24) / 4))) (seqZ 0 24)))
        = tensor1_size (seqZ 0 24) mod 4.
Proof.
  assert (1 ≤ 4 ≤ tensor1_size (seqZ 0 24)) as H by (vm_compute; split; discriminate).
  split; [exact H|]. exact (batchify_columns (seqZ 0 24) 4 H).
Defined.

Example batchify_alphabet :
  batchify (seqZ 0 24) 4
  = Ok (Tensor2 6 4 [0; 6; 12; 18; 1; 7; 13; 19; 2; 8; 14; 20;
                     3; 9; 15; 21; 4; 10; 16; 22; 5; 11; 17; 23]).
Proof. reflexivity. Qed.

(** C8, as stated, fails: a sequence shorter than the batch width is not
    rejected; the result is the empty matrix with [B] columns. *)
Lemma batchify_short_input_succeeds :
  tensor1_size [1; 2] < 4 ∧ batchify [1; 2] 4 = Ok (Tensor2 0 4 []).
Proof. split; reflexivity. Qed.

(** C8, amended. [batchify] fails exactly when the batch width is not
    positive: with [ZeroDivisionError] for [B = 0] and with the tensor
    library's [RuntimeError] for [B < 0].  For every [B >= 1] it returns,
    whatever the length [L]; when [L < B] the result is the empty matrix of
    shape [[0, B]]. *)
Theorem batchify_errors (data : tensor1) (B : Z) :
  (B = 0 → batchify data B = Raise ZeroDivisionError)
  ∧ (B < 0 → batchify data B = Raise RuntimeError)
  ∧ (1 ≤ B → is_ok (batchify data B) = true)
  ∧ (1 ≤ B → tensor1_size data < B →
     batchify data B = Ok (Tensor2 0 (Z.to_nat B) [])).
Proof.
  assert (0 ≤ tensor1_size data) as HL by (unfold tensor1_size; lia).
  split; [|split; [|split]].
  - intros ->. reflexivity.
  - intros HB. unfold batchify, py_floordiv.
    destruct (Z.eqb_spec B 0) as [|HB0]; [lia|]. cbn [mbind result_bind].
    pose proof (Z.div_mod (tensor1_size data) B ltac:(lia)) as Hdm.
    pose proof (Z.mod_neg_bound (tensor1_size data) B ltac:(lia)) as Hmod.
    set (q := tensor1_size data / B) in *.
    unfold narrow.
    destruct (Z.ltb_spec (q * B) 0); [done|].
    destruct (Z.leb_spec (- tensor1_size data) 0); [|lia].
    destruct (Z.leb_spec 0 (tensor1_size data)); [|lia]. cbn [andb negb Z.ltb Z.compare].
    destruct (Z.leb_spec 0 (tensor1_size data - q * B)); [|done].
    cbn [negb mbind result_bind]. unfold view2, infer_size. cbn [infer_scan].
    destruct (Z.eqb_spec B (-1)) as [->|]; [done|].
    destruct (Z.leb_spec 0 B); [lia|]. done.
  - intros HB. by rewrite batchify_ok.
  - intros HB Hlt. rewrite batchify_ok by done.
    rewrite Z.div_small by lia. done.
Qed.

(** ** [get_batch] *)

Lemma view_flat_ok (m : tensor2) : view_flat m = Ok (storage m).
Proof.
  unfold view_flat, infer_size.
  change (infer_scan [-1] 0 1 None) with (Ok (A := Z * option nat) (1, Some 0%nat)).
  cbn [mbind result_bind]. rewrite Z.mod_1_r.
  rewrite (bool_decide_eq_true_2 _ (mk_is_Some _ _ eq_refl)).
  cbn [andb Z.ltb Z.compare Z.eqb]. by rewrite orb_true_r.
Qed.

Lemma slice0_in_range (m : tensor2) (a b : Z) :
  0 ≤ a → a ≤ b → b ≤ len2 m →
  slice0 m a b
  = Tensor2 (Z.to_nat (b - a)) (size1 m)
      (take (Z.to_nat (b - a) * size1 m) (drop (Z.to_nat a * size1 m) (storage m))).
Proof.
  unfold len2, slice0. intros Ha Hab Hb.
  destruct (Z.ltb_spec a 0); [lia|]. destruct (Z.ltb_spec b 0); [lia|].
  destruct (Z.leb_spec (Z.of_nat (size0 m)) a);
    destruct (Z.leb_spec (Z.of_nat (size0 m)) b);
    repeat match goal with
           | |- context [?x <? ?y] => destruct (Z.ltb_spec x y); try lia
           end;
    try (assert (a = b) as -> by lia);
    try (assert (a = Z.of_nat (size0 m)) as -> by lia);
    try (assert (b = Z.of_nat (size0 m)) as -> by lia); try done; lia.
Qed.

Lemma row_of_window (l : list Z) (B a len k : nat) :
  (k < len)%nat →
  take B (drop (k * B) (take (len * B) (drop (a * B) l)))
  = take B (drop ((a + k) * B) l).
Proof.
  intros Hk. apply list_eq. intros j.
  destruct (decide (j < B)%nat) as [Hj|Hj].
  - rewrite !lookup_take_lt, !lookup_drop, lookup_take_lt, lookup_drop by nia.
    f_equal. lia.
  - by rewrite !lookup_take_ge by lia.
Qed.

(** C2. For a batched stream [S] with [rows] rows and [B] columns, an offset
    [0 <= i < rows - 1] and a window size [W = args.bptt >= 0], [get_batch]
    returns an input of [seq_len] rows of [B] elements and a target of
    [seq_len * B] elements, where [seq_len = min(W, rows - 1 - i)]; input
    row [k] is row [i + k] of [S], and the target, cut into runs of [B]
    (row-major flattening), has as run [k] row [i + 1 + k] of [S]: the input
    shifted by one row. *)
Theorem get_batch_window (args : Args) (S : tensor2) (i : Z) :
  wf_tensor2 S →
  0 ≤ i < len2 S - 1 →
  0 ≤ bptt args →
  let B := size1 S in
  let seq_len := Z.min (bptt args) (len2 S - 1 - i) in
  ∃ (data : tensor2) (target : tensor1),
    get_batch args S i = Ok (data, target)
    ∧ Z.of_nat (size0 data) = seq_len
    ∧ size1 data = B
    ∧ Z.of_nat (length (storage data)) = seq_len * Z.of_nat B
    ∧ Z.of_nat (length target) = seq_len * Z.of_nat B
    ∧ ∀ k : nat, Z.of_nat k < seq_len →
        row data k = row S (Z.to_nat i + k)
        ∧ take B (drop (k * B) target) = row S (Z.to_nat i + 1 + k).
Proof.
  intros Hwf Hi HW B seq_len.
  assert (0 ≤ seq_len) as Hlen by (unfold seq_len; lia).
  assert (i + 1 + seq_len ≤ len2 S) as Hend by (unfold seq_len; lia).
  unfold get_batch. fold seq_len. clearbody seq_len.
  rewrite view_flat_ok. cbn [mbind result_bind].
  rewrite !slice0_in_range by lia.
  replace (i + seq_len - i) with seq_len by lia.
  replace (i + 1 + seq_len - (i + 1)) with seq_len by lia.
  unfold wf_tensor2, len2 in *. fold B in Hwf.
  eexists _, _. split; [reflexivity|]. cbn [size0 size1 storage]. fold B.
  split; [lia|]. split; [done|].
  split; [|split].
  - rewrite length_take, length_drop. nia.
  - rewrite length_take, length_drop. nia.
  - intros k Hk. unfold row. cbn [size0 size1 storage]. fold B. split.
    + rewrite row_of_window by lia. done.
    + rewrite row_of_window by lia. do 3 f_equal. lia.
Qed.

(** The example in the comment above [get_batch]: the alphabet in four
    columns, a bptt-limit of 2, offset 0. *)
Lemma get_batch_window_witness :
  ∃ (data : tensor2) (target : tensor1),
    get_batch example_args alphabet_stream 0 = Ok (data, target)
    ∧ Z.of_nat (size0 data) = 2
    ∧ size1 data = 4%nat
    ∧ Z.of_nat (length (storage data)) = 2 * 4
    ∧ Z.of_nat (length target) = 2 * 4
    ∧ ∀ k : nat, Z.of_nat k < 2 →
        row data k = row alphabet_stream (Z.to_nat 0 + k)
        ∧ take 4 (drop (k * 4) target) = row alphabet_stream (Z.to_nat 0 + 1 + k).
Proof.
  apply (get_batch_window example_args alphabet_stream 0).
  - reflexivity.
  - vm_compute. split; [discriminate|reflexivity].
  - vm_compute. discriminate.
Defined.

Example get_batch_alphabet :
  get_batch example_args alphabet_stream 0
  = Ok (Tensor2 2 4 [0; 6; 12; 18; 1; 7; 13; 19], [1; 7; 13; 19; 2; 8; 14; 20]).
Proof. reflexivity. Qed.

(** With a negative window the slice bounds wrap around, as Python's
    negative indices do: the program never calls [get_batch] that way,
    since [range] is then empty. *)
Example get_batch_negative_window :
  (fun r => size0 (fst r))
    <$> get_batch (MkArgs true 2 1 20%float 3 4 (-3) 0 1) alphabet_stream 0
  = Ok 3%nat.
Proof. reflexivity. Qed.

(** ** [range] with a positive step *)

Lemma py_range_pos (start stop step : Z) :
  0 < step →
  py_range start stop step
  = Ok ((fun k => start + k * step) <$> seqZ 0 (range_length start stop step)).
Proof.
  intros Hstep. unfold py_range.
  destruct (Z.eqb_spec step 0); [lia|]. destruct (Z.ltb_spec 0 step); [done|lia].
Qed.

Lemma elem_of_range_pos (start stop step x : Z) :
  0 < step →
  x ∈ (fun k => start + k * step) <$> seqZ 0 (range_length start stop step)
  ↔ ∃ k, 0 ≤ k ∧ x = start + k * step ∧ x < stop.
Proof.
  intros Hstep. rewrite list_elem_of_fmap. unfold range_length.
  split.
  - intros (k & -> & Hk%elem_of_seqZ). exists k.
    destruct (Z.ltb_spec start stop); [|lia].
    pose proof (Z.mul_div_le (stop - 1 - start) step Hstep).
    split; [lia|]. split; [done|]. nia.
  - intros (k & Hk & -> & Hlt). exists k. split; [done|].
    apply elem_of_seqZ. destruct (Z.ltb_spec start stop); [|nia].
    assert (k ≤ (stop - 1 - start) / step); [|lia].
    apply Z.div_le_lower_bound; lia.
Qed.

Lemma range_pos_sorted (start step n : Z) :
  0 < step →
  StronglySorted Z.le ((fun k => start + k * step) <$> seqZ 0 n).
Proof.
  intros Hstep. destruct (Z.le_gt_cases n 0) as [Hn|Hn].
  { rewrite seqZ_nil by done. constructor. }
  rewrite <-(Z2Nat.id n) by lia. generalize (Z.to_nat n). clear n Hn.
  intros n. induction n as [|n IH]; [constructor|].
  rewrite seqZ_S, fmap_app. apply StronglySorted_app_2; [|done|].
  - intros x1 x2 (k & -> & Hk%elem_of_seqZ)%list_elem_of_fmap Hx2.
    simpl in Hx2. apply list_elem_of_singleton in Hx2 as ->. nia.
  - simpl. repeat constructor.
Qed.

Lemma range_pos_NoDup (start step n : Z) :
  0 < step → NoDup ((fun k => start + k * step) <$> seqZ 0 n).
Proof.
  intros Hstep. apply NoDup_fmap_2_strong; [|apply NoDup_seqZ].
  intros k1 k2 _ _ Heq. nia.
Qed.

(** ** The Distributed Step Partitioner *)

Lemma partition_offsets_pos (W ws rows r : Z) :
  1 ≤ W → 1 ≤ ws →
  partition_offsets W r ws rows = Ok (rank_offsets W ws rows r).
Proof. intros HW Hws. unfold partition_offsets. rewrite py_range_pos by nia. done. Qed.

Lemma elem_of_rank_offsets (W ws rows r x : Z) :
  1 ≤ W → 1 ≤ ws →
  x ∈ rank_offsets W ws rows r
  ↔ ∃ k, 0 ≤ k ∧ x = W * (r + k * ws) ∧ x < rows - 1.
Proof.
  intros HW Hws. unfold rank_offsets. rewrite elem_of_range_pos by nia.
  split; intros (k & Hk & -> & Hlt); exists k; (split; [done|]);
    (split; [lia|]); lia.
Qed.

Lemma rank_offsets_disjoint (W ws rows r1 r2 x : Z) :
  1 ≤ W → 1 ≤ ws → 0 ≤ r1 < ws → 0 ≤ r2 < ws →
  x ∈ rank_offsets W ws rows r1 → x ∈ rank_offsets W ws rows r2 → r1 = r2.
Proof.
  intros HW Hws Hr1 Hr2.
  rewrite !elem_of_rank_offsets by done.
  intros (k1 & Hk1 & -> & _) (k2 & Hk2 & Heq & _).
  apply Z.mul_reg_l in Heq; [|lia].
  destruct (Z.lt_trichotomy k1 k2) as [?|[->|?]]; [nia|lia|nia].
Qed.

Lemma rank_offsets_union (W ws rows x : Z) :
  1 ≤ W → 1 ≤ ws →
  x ∈ seqZ 0 ws ≫= rank_offsets W ws rows ↔ x ∈ rank_offsets W 1 rows 0.
Proof.
  intros HW Hws. rewrite list_elem_of_bind.
  setoid_rewrite elem_of_rank_offsets; [|done..].
  setoid_rewrite elem_of_seqZ. split.
  - intros (r & (k & Hk & -> & Hlt) & Hr). exists (r + k * ws).
    split; [nia|]. split; [f_equal; lia|done].
  - intros (j & Hj & -> & Hlt).
    pose proof (Z.div_mod j ws ltac:(lia)) as Hdm.
    pose proof (Z.mod_pos_bound j ws ltac:(lia)) as Hmod.
    exists (j mod ws). split; [|lia].
    exists (j / ws). split; [apply Z.div_pos; lia|].
    split; [f_equal; lia|].
    replace (j mod ws + j / ws * ws) with (0 + j * 1) by lia. done.
Qed.

(** The loops of [train] and [evaluate] reach [get_batch] only with a
    positive window: over a stream that has a row, [range] yields nothing
    for a negative [args.bptt] and raises for 0. *)
Lemma offsets_need_positive_window (W r ws rows i : Z) (offsets : list Z) :
  0 ≤ r → 1 ≤ ws → 1 ≤ rows →
  partition_offsets W r ws rows = Ok offsets →
  i ∈ offsets →
  1 ≤ W.
Proof.
  intros Hr Hws Hrows Hrange Hi. unfold partition_offsets, py_range in Hrange.
  destruct (Z.eqb_spec (W * ws) 0); [done|].
  destruct (Z.ltb_spec 0 (W * ws)); [nia|].
  injection Hrange as <-. unfold range_length in Hi.
  destruct (Z.ltb_spec (rows - 1) (W * r)); [nia|].
  rewrite seqZ_nil in Hi by done. by apply elem_of_nil in Hi.
Qed.

(** C3. For a world size [ws >= 1], a window size [W >= 1] and a stream of
    [rows] rows: every rank [r] in [[0, ws)] iterates the offsets
    [W*r, W*r + W*ws, W*r + 2*W*ws, ...] below [rows - 1]; the offsets of all
    ranks together, sorted, are exactly the offsets [0, W, 2W, ...] below
    [rows - 1] of a single worker, and no offset belongs to two ranks. *)
Theorem partition_covers_once (W ws rows : Z) :
  1 ≤ W → 1 ≤ ws →
  ∃ (single : list Z) (per_rank : Z → list Z),
    partition_offsets W 0 1 rows = Ok single
    ∧ (∀ r, 0 ≤ r < ws → partition_offsets W r ws rows = Ok (per_rank r))
    ∧ (∀ r x, x ∈ per_rank r ↔ ∃ k, 0 ≤ k ∧ x = W * r + k * (W * ws) ∧ x < rows - 1)
    ∧ (∀ x, x ∈ single ↔ ∃ k, 0 ≤ k ∧ x = k * W ∧ x < rows - 1)
    ∧ merge_sort Z.le (seqZ 0 ws ≫= per_rank) = single
    ∧ (∀ r1 r2 x, 0 ≤ r1 < ws → 0 ≤ r2 < ws →
         x ∈ per_rank r1 → x ∈ per_rank r2 → r1 = r2)
    ∧ NoDup (seqZ 0 ws ≫= per_rank).
Proof.
  intros HW Hws.
  assert (NoDup (seqZ 0 ws ≫= rank_offsets W ws rows)) as Hnodup.
  { apply NoDup_bind; [|intros; apply range_pos_NoDup; nia|apply NoDup_seqZ].
    intros r1 r2 x Hr1%elem_of_seqZ Hr2%elem_of_seqZ.
    apply rank_offsets_disjoint; (done || lia). }
  exists (rank_offsets W 1 rows 0), (rank_offsets W ws rows).
  split; [by apply partition_offsets_pos|].
  split; [intros; by apply partition_offsets_pos|].
  split.
  { intros r x. rewrite elem_of_rank_offsets by done.
    split; intros (k & Hk & -> & Hlt); exists k; (split; [done|]);
      (split; [lia|]); lia. }
  split.
  { intros x. rewrite elem_of_rank_offsets by done.
    split; intros (k & Hk & -> & Hlt); exists k; (split; [done|]);
      (split; [lia|]); lia. }
  split; [|split; [|done]].
  - apply (StronglySorted_unique Z.le).
    + apply StronglySorted_merge_sort; apply _.
    + apply range_pos_sorted. lia.
    + rewrite merge_sort_Permutation.
      apply NoDup_Permutation; [done|apply range_pos_NoDup; lia|].
      intros x. by apply rank_offsets_union.
  - intros r1 r2 x. by apply rank_offsets_disjoint.
Qed.

Lemma partition_covers_once_witness :
  ∃ (single : list Z) (per_rank : Z → list Z),
    partition_offsets 35 0 1 300 = Ok single
    ∧ (∀ r, 0 ≤ r < 3 → partition_offsets 35 r 3 300 = Ok (per_rank r))
    ∧ (∀ r x, x ∈ per_rank r ↔ ∃ k, 0 ≤ k ∧ x = 35 * r + k * (35 * 3) ∧ x < 300 - 1)
    ∧ (∀ x, x ∈ single ↔ ∃ k, 0 ≤ k ∧ x = k * 35 ∧ x < 300 - 1)
    ∧ merge_sort Z.le (seqZ 0 3 ≫= per_rank) = single
    ∧ (∀ r1 r2 x, 0 ≤ r1 < 3 → 0 ≤ r2 < 3 →
         x ∈ per_rank r1 → x ∈ per_rank r2 → r1 = r2)
    ∧ NoDup (seqZ 0 3 ≫= per_rank).
Proof. apply (partition_covers_once 35 3 300); lia. Defined.

Example partition_three_workers :
  partition_offsets 35 0 3 300 = Ok [0; 105; 210]
  ∧ partition_offsets 35 1 3 300 = Ok [35; 140; 245]
  ∧ partition_offsets 35 2 3 300 = Ok [70; 175; 280]
  ∧ partition_offsets 35 0 1 300 = Ok [0; 35; 70; 105; 140; 175; 210; 245; 280].
Proof. repeat split; reflexivity. Qed.

(** ** [repackage_hidden] *)

(** Induction over hidden states, with the hypothesis for every component
    of a tuple. *)
Lemma hidden_nested_ind (P : hidden → Prop) :
  (∀ x, P (HTensor x)) →
  (∀ hs, Forall P hs → P (HTuple hs)) →
  ∀ h, P h.
Proof.
  intros Htensor Htuple. fix IH 1. intros [x|hs].
  - apply Htensor.
  - apply Htuple. induction hs as [|h hs IHhs]; constructor; [apply IH|apply IHhs].
Qed.

Lemma detach_detach (x : atensor) : detach (detach x) = detach x.
Proof. reflexivity. Qed.

Lemma repackage_hidden_values (h : hidden) :
  hidden_values (repackage_hidden h) = hidden_values h.
Proof.
  induction h as [x|hs IH] using hidden_nested_ind; [done|].
  simpl. f_equal. rewrite map_map. apply map_ext_Forall, IH.
Qed.

Lemma repackage_hidden_no_history (h : hidden) :
  no_history (repackage_hidden h) = true.
Proof.
  induction h as [x|hs IH] using hidden_nested_ind; [done|].
  simpl. rewrite forallb_forall. intros h' (h & <- & Hin)%in_map_iff.
  rewrite List.Forall_forall in IH. by apply IH.
Qed.

Lemma repackage_hidden_depth (h : hidden) :
  history_depth (repackage_hidden h) = 0%nat.
Proof.
  induction h as [x|hs IH] using hidden_nested_ind; [done|].
  simpl. induction IH as [|h hs Hh _ IHhs]; [done|].
  simpl. rewrite Hh, IHhs. done.
Qed.

(** C9. [repackage_hidden] is idempotent: for a hidden state that is a
    tensor or a nested tuple of tensors, repackaging twice gives exactly
    what repackaging once gives, with the numeric values and the structure
    of the original state, and neither result carries a backward history. *)
Theorem repackage_hidden_idempotent (h : hidden) :
  repackage_hidden (repackage_hidden h) = repackage_hidden h
  ∧ hidden_values (repackage_hidden (repackage_hidden h)) = hidden_values h
  ∧ hidden_values (repackage_hidden h) = hidden_values h
  ∧ no_history (repackage_hidden h) = true
  ∧ no_history (repackage_hidden (repackage_hidden h)) = true
  ∧ history_depth (repackage_hidden h) = 0%nat
  ∧ history_depth (repackage_hidden (repackage_hidden h)) = 0%nat.
Proof.
  split; [|rewrite !repackage_hidden_values, !repackage_hidden_no_history,
            !repackage_hidden_depth; done].
  induction h as [x|hs IH] using hidden_nested_ind; [done|].
  simpl. f_equal. rewrite map_map. apply map_ext_Forall, IH.
Qed.

(** An LSTM state whose two tensors come out of a forward pass. *)
Example repackage_lstm_state :
  let node := GradNode [GradNode []; GradNode [GradNode []]] in
  let h := HTuple [HTensor (ATensor [1; 1; 2] [0.5; -1]%float true (Some node));
                   HTensor (ATensor [1; 1; 2] [2; 0.25]%float true (Some node))] in
  history_depth h = 3%nat
  ∧ no_history h = false
  ∧ repackage_hidden h
    = HTuple [HTensor (ATensor [1; 1; 2] [0.5; -1]%float false None);
              HTensor (ATensor [1; 1; 2] [2; 0.25]%float false None)].
Proof. repeat split; reflexivity. Qed.

(** ** The checkpoint policy *)

Section Policy.
Context {Model Rng : Type}.
Implicit Types (c : controller (Model := Model)) (w : world (Model := Model) (Rng := Rng)).

Lemma checkpoint_branch (epoch : Z) (v : float) c w :
  py_not_opt_float (best_val_loss c) = true
  ∨ (∃ best, best_val_loss c = Some best ∧ (v <? best)%float = true) →
  checkpoint_or_anneal epoch v (c, w)
  = (Controller (c_lr c) (Some v) (Some (net w)) (writes c ++ [epoch]), w).
Proof.
  intros H. unfold checkpoint_or_anneal.
  destruct H as [->|(best & -> & Hlt)]; [done|].
  rewrite Hlt, orb_true_r. done.
Qed.

Lemma anneal_branch (epoch : Z) (v best : float) c w :
  best_val_loss c = Some best →
  (best =? 0)%float = false →
  (v <? best)%float = false →
  checkpoint_or_anneal epoch v (c, w)
  = (Controller (c_lr c / 4)%float (Some best) (save_file c) (writes c),
     World (c_lr c / 4)%float (gen w) (net w)).
Proof.
  intros Hb Hz Hlt. unfold checkpoint_or_anneal. rewrite Hb. simpl.
  unfold py_not_float. rewrite Hz, Hlt. done.
Qed.
End Policy.

(** ** Loops *)

(** Case analysis on the first step of a computation that returned. *)
Tactic Notation "bind_ok" hyp(H) "as" simple_intropattern(x) ident(E) :=
  match type of H with
  | mbind _ ?r = Ok _ =>
      destruct r as [x|?] eqn:E; cbn [mbind result_bind] in H; [|discriminate H]
  end.

Lemma last_nonempty {A : Type} (a d d' : A) (l : list A) :
  List.last (a :: l) d = List.last (a :: l) d'.
Proof.
  revert a. induction l as [|b l IH]; intros a; [done|].
  change (List.last (b :: l) d = List.last (b :: l) d'). apply IH.
Qed.

Lemma for_each_length {S : Type} (body : S → Z → result S) (s : S)
    (offsets : list Z) (states : list S) :
  for_each body s offsets = Ok states → length states = length offsets.
Proof.
  revert s states. induction offsets as [|i offsets IH]; intros s states H.
  - by injection H as <-.
  - simpl in H. bind_ok H as s1 E1. bind_ok H as rest E2. injection H as <-.
    simpl. f_equal. eauto.
Qed.

(** An invariant of the loop body holds after every iteration. *)
Lemma for_each_invariant {S : Type} (body : S → Z → result S) (P : S → Prop)
    (s : S) (offsets : list Z) (states : list S) :
  (∀ s i s', P s → body s i = Ok s' → P s') →
  P s →
  for_each body s offsets = Ok states →
  Forall P states ∧ P (List.last states s).
Proof.
  intros Hbody. revert s states.
  induction offsets as [|i offsets IH]; intros s states Hs H.
  - injection H as <-. by split.
  - simpl in H. bind_ok H as s1 E1. bind_ok H as rest E2. injection H as <-.
    assert (P s1) as Hs1 by eauto.
    destruct (IH _ _ Hs1 E2) as [Hall Hlast].
    split; [by constructor|].
    destruct rest as [|s2 rest]; [done|].
    change (P (List.last (s2 :: rest) s)). by rewrite (last_nonempty _ _ s1).
Qed.

(** ** [train]: the learning rate and the random draws *)

Section TrainFacts.
Context {Model Output Rng : Type}.
Variable forward : Model → bool → tensor2 → hidden → Output * hidden.
Variable sgd_step : Model → float → tensor2 → hidden → tensor1 → Model.
Variable np_random : Rng → float * Rng.
Variable np_normal : float → float → Rng → float * Rng.

#[local] Abbreviation loop_body := (train_step forward sgd_step (Rng := Rng)).

(** The loop body changes neither the optimizer's learning rate nor the
    generator. *)
Lemma train_step_frame (args : Args) (data : tensor2)
    (st st' : world * hidden) (i : Z) :
  loop_body args data st i = Ok st' →
  opt_lr (fst st') = opt_lr (fst st) ∧ gen (fst st') = gen (fst st).
Proof.
  destruct st as [w hid]. unfold train_step. intros H.
  bind_ok H as [d tg] E.
  destruct (forward _ _ _ _). by injection H as <-.
Qed.

(** What a successful call of [train] went through. *)
Lemma train_inv (args : Args) (w w' : world) (data : tensor2)
    (states : list world) :
  train forward sgd_step np_random np_normal args w data = Ok (w', states) →
  ∃ bptt_eff g1 seq_len g2 s b scaled hid offsets lstates,
    draw_bptt np_random args (gen w) = Ok (bptt_eff, g1)
    ∧ draw_seq_len np_normal bptt_eff g1 = Ok (seq_len, g2)
    ∧ py_float_of_int seq_len = Ok s
    ∧ py_float_of_int (bptt args) = Ok b
    ∧ py_truediv (opt_lr w * s)%float b = Ok scaled
    ∧ init_hidden args (batch_size args) = Ok hid
    ∧ py_range (bptt args * rank args) (len2 data - 1)
               (bptt args * world_size args) = Ok offsets
    ∧ for_each (loop_body args data) (World scaled g2 (net w), hid) offsets
      = Ok lstates
    ∧ states = fst <$> lstates
    ∧ w' = World (opt_lr w)
             (gen (fst (List.last lstates (World scaled g2 (net w), hid))))
             (net (fst (List.last lstates (World scaled g2 (net w), hid)))).
Proof.
  unfold train. intros H.
  bind_ok H as [bptt_eff g1] E1.
  bind_ok H as [seq_len g2] E2.
  bind_ok H as s E3. bind_ok H as b E4. bind_ok H as scaled E5.
  bind_ok H as hid E6. bind_ok H as offsets E7. bind_ok H as lstates E8.
  injection H as <- <-.
  eexists _, _, _, _, _, _, _, _, _, _. repeat (split; [eassumption || reflexivity|]).
  reflexivity.
Qed.

Lemma train_loop_frame (args : Args) (data : tensor2) (w0 : world)
    (hid : hidden) (offsets : list Z) (lstates : list (world * hidden)) :
  for_each (loop_body args data) (w0, hid) offsets = Ok lstates →
  Forall (fun st => opt_lr st = opt_lr w0 ∧ gen st = gen w0) (fst <$> lstates)
  ∧ gen (fst (List.last lstates (w0, hid))) = gen w0.
Proof.
  intros H.
  destruct (for_each_invariant (loop_body args data)
              (fun st => opt_lr (fst st) = opt_lr w0 ∧ gen (fst st) = gen w0)
              (w0, hid) offsets lstates) as [Hall Hlast]; [|done|done|].
  - intros st i st' [Hlr Hgen] Hstep.
    apply train_step_frame in Hstep as [-> ->]. done.
  - split; [|apply Hlast]. by apply Forall_fmap.
Qed.

(** The loop of [train] raises nothing: [get_batch] returns at every
    offset. *)
Lemma train_loop_returns (args : Args) (data : tensor2) (offsets : list Z)
    (st : world * hidden) :
  ∃ lstates, for_each (loop_body args data) st offsets = Ok lstates.
Proof.
  revert st. induction offsets as [|i offsets IH]; intros [w hid]; [by exists []|].
  cbn [for_each].
  assert (∃ st', loop_body args data (w, hid) i = Ok st') as [st' ->].
  { unfold train_step, get_batch. rewrite view_flat_ok. cbn [mbind result_bind].
    destruct (forward _ _ _ _) as [output hid']. eauto. }
  cbn [mbind result_bind].
  edestruct IH as [lstates ->]. cbn [mbind result_bind]. eauto.
Qed.

(** [train] returns whenever the draws convert, the hidden state can be
    allocated and neither the window nor the stride is 0. *)
Lemma train_returns (args : Args) (w : world) (data : tensor2)
    (u x nominal s : float) (g0 g2 : Rng) (n : Z) (hid : hidden) :
  np_random (gen w) = (u, g0) →
  py_float_of_int (bptt args) = Ok nominal →
  np_normal (if (u <? 0.95)%float then nominal else (nominal / 2)%float)
            5%float g0 = (x, g2) →
  py_int x = Ok n →
  py_float_of_int (Z.max 5 n) = Ok s →
  (nominal =? 0)%float = false →
  init_hidden args (batch_size args) = Ok hid →
  bptt args * world_size args ≠ 0 →
  ∃ w' states,
    train forward sgd_step np_random np_normal args w data = Ok (w', states).
Proof.
  intros Hu Hnom Hx Hint Hs Hnz Hhid Hstep.
  unfold train, draw_bptt, draw_seq_len, py_truediv, py_range.
  rewrite Hu, Hnom. cbn [mbind result_bind]. rewrite Hx, Hint.
  cbn [mbind result_bind]. rewrite Hs. cbn [mbind result_bind].
  rewrite Hnz, Hhid. cbn [mbind result_bind].
  destruct (Z.eqb_spec (bptt args * world_size args) 0); [done|].
  cbn [mbind result_bind].
  edestruct train_loop_returns as [lstates ->]. cbn [mbind result_bind]. eauto.
Qed.


End TrainFacts.

Lemma short_window_run_returns :
  ∃ w' st1 st2 st3, short_window_run = Ok (w', [st1; st2; st3]).
Proof. vm_compute. eauto. Qed.





(** ** The order of floats

    [<] on binary64 values is transitive and asymmetric; both follow from
    the specification of the comparison on sign, exponent and mantissa. *)

Lemma compare_cont_Eq_Lt (m1 m2 : positive) :
  Pos.compare_cont Eq m1 m2 = Lt ↔ (m1 < m2)%positive.
Proof. rewrite Pos.compare_cont_spec. unfold Pos.lt. by destruct (m1 ?= m2)%positive. Qed.

Lemma compare_cont_Eq_Gt (m1 m2 : positive) :
  CompOpp (Pos.compare_cont Eq m1 m2) = Lt ↔ (m2 < m1)%positive.
Proof.
  rewrite Pos.compare_cont_spec, <-Pos.gt_lt_iff. unfold Pos.gt.
  by destruct (m1 ?= m2)%positive.
Qed.

Lemma finite_compare_Lt (e1 e2 : Z) (m1 m2 : positive) :
  match e1 ?= e2 with
  | Lt => Lt
  | Gt => Gt
  | Eq => Pos.compare_cont Eq m1 m2
  end = Lt ↔ e1 < e2 ∨ (e1 = e2 ∧ (m1 < m2)%positive).
Proof.
  destruct (Z.compare_spec e1 e2); [rewrite compare_cont_Eq_Lt|..];
    split; try done; try lia; intros [?|[? ?]]; done || lia.
Qed.

Lemma finite_compare_opp_Lt (e1 e2 : Z) (m1 m2 : positive) :
  match e1 ?= e2 with
  | Lt => Gt
  | Gt => Lt
  | Eq => CompOpp (Pos.compare_cont Eq m1 m2)
  end = Lt ↔ e2 < e1 ∨ (e1 = e2 ∧ (m2 < m1)%positive).
Proof.
  destruct (Z.compare_spec e1 e2); [rewrite compare_cont_Eq_Gt|..];
    split; try done; try lia; intros [?|[? ?]]; done || lia.
Qed.

Lemma SFcompare_Lt_trans (a b c : spec_float) :
  SFcompare a b = Some Lt → SFcompare b c = Some Lt → SFcompare a c = Some Lt.
Proof.
  destruct a as [sa|sa| |sa ma ea], b as [sb|sb| |sb mb eb], c as [sc|sc| |sc mc ec];
    try destruct sa; try destruct sb; try destruct sc; simpl; try congruence;
    intros [= Hab] [= Hbc]; f_equal;
    rewrite ?finite_compare_Lt, ?finite_compare_opp_Lt in *; lia.
Qed.

Lemma SFcompare_Lt_asym (a b : spec_float) :
  SFcompare a b = Some Lt → SFcompare b a ≠ Some Lt.
Proof.
  destruct a as [sa|sa| |sa ma ea], b as [sb|sb| |sb mb eb];
    try destruct sa; try destruct sb; simpl; try congruence;
    intros [= Hab] [= Hba];
    rewrite ?finite_compare_Lt, ?finite_compare_opp_Lt in *; lia.
Qed.

Lemma float_ltb_trans (x y z : float) :
  (x <? y)%float = true → (y <? z)%float = true → (x <? z)%float = true.
Proof.
  rewrite !ltb_spec. unfold SFltb.
  destruct (SFcompare (Prim2SF x) (Prim2SF y)) as [[]|] eqn:H1; try done.
  destruct (SFcompare (Prim2SF y) (Prim2SF z)) as [[]|] eqn:H2; try done.
  by rewrite (SFcompare_Lt_trans _ _ _ H1 H2).
Qed.

Lemma float_ltb_asym (x y : float) :
  (x <? y)%float = true → (y <? x)%float = false.
Proof.
  rewrite !ltb_spec. unfold SFltb.
  destruct (SFcompare (Prim2SF x) (Prim2SF y)) as [[]|] eqn:H1; try done.
  pose proof (SFcompare_Lt_asym _ _ H1) as H2.
  destruct (SFcompare (Prim2SF y) (Prim2SF x)) as [[]|]; done.
Qed.

(** ** The epoch loop *)

(** C10. Whenever the best validation loss so far is 0.0, the checkpoint
    branch is taken whatever the new validation loss is: the model is
    written, the best-so-far becomes the new loss, and neither [lr] nor the
    optimizer's rate is annealed; the outcome is the one of an unset
    best-so-far. *)
Theorem checkpoint_when_best_is_zero {Model Rng : Type} (epoch : Z)
    (val_loss best : float) (c : controller (Model := Model))
    (w : world (Model := Model) (Rng := Rng)) :
  best_val_loss c = Some best →
  (best =? 0)%float = true →
  checkpoint_or_anneal epoch val_loss (c, w)
  = (Controller (c_lr c) (Some val_loss) (Some (net w)) (writes c ++ [epoch]), w)
  ∧ checkpoint_or_anneal epoch val_loss (c, w)
    = checkpoint_or_anneal epoch val_loss
        (Controller (c_lr c) None (save_file c) (writes c), w).
Proof.
  intros Hbest Hzero.
  assert (py_not_opt_float (best_val_loss c) = true) as Hnot by (by rewrite Hbest).
  split; [by rewrite checkpoint_branch by auto|].
  rewrite !checkpoint_branch by auto. done.
Qed.

Lemma checkpoint_when_best_is_zero_witness :
  let c : controller (Model := step_log) := Controller 20%float (Some 0%float) (Some []) [1] in
  let w : world (Model := step_log) (Rng := tape) := World 20%float [] (after_steps 6) in
  best_val_loss c = Some 0%float
  ∧ (0 <? 1.5)%float = true
  ∧ checkpoint_or_anneal 2 1.5%float (c, w)
    = (Controller 20%float (Some 1.5%float) (Some (after_steps 6)) [1; 2], w).
Proof.
  split; [reflexivity|]. split; [reflexivity|].
  apply (checkpoint_when_best_is_zero (Model := step_log) (Rng := tape) 2 1.5%float 0%float
           (Controller 20%float (Some 0%float) (Some []) [1])
           (World 20%float [] (after_steps 6))); reflexivity.
Defined.

(** X16. With validation losses that fall from epoch to epoch the
    checkpoint is written at every epoch and no rate changes. *)
Lemma run_policy_decreasing {Model Rng : Type} (losses : list float) :
  strictly_decreasing losses →
  ∀ (epoch : Z) (c : controller (Model := Model))
    (w : world (Model := Model) (Rng := Rng)),
    match best_val_loss c, losses with
    | Some best, v :: _ => (v <? best)%float = true
    | _, _ => True
    end →
    ∀ k st, run_policy epoch losses (c, w) !! k = Some st →
      c_lr (fst st) = c_lr c
      ∧ snd st = w
      ∧ writes (fst st) = writes c ++ seqZ epoch (Z.of_nat (S k))
      ∧ best_val_loss (fst st) = losses !! k.
Proof.
  induction losses as [|v losses IH]; intros Hdec epoch c w Hfirst k st Hst; [done|].
  assert (checkpoint_or_anneal epoch v (c, w)
          = (Controller (c_lr c) (Some v) (Some (net w)) (writes c ++ [epoch]), w))
    as Hstep.
  { apply checkpoint_branch. destruct (best_val_loss c) as [best|]; [|by left].
    right. by exists best. }
  cbn [run_policy] in Hst. rewrite Hstep in Hst. destruct k as [|k].
  - injection Hst as <-. simpl. repeat split; try done.
  - cbn [lookup list_lookup] in Hst. apply IH in Hst as (Hlr & Hw & Hwr & Hbest).
    + repeat split; try done. rewrite Hwr. simpl.
      rewrite <-app_assoc. f_equal.
      rewrite (seqZ_cons epoch) by lia. simpl. do 2 f_equal; lia.
    + intros j a b Ha Hb. apply (Hdec (S j)); done.
    + simpl. destruct losses as [|v' losses]; [done|]. by apply (Hdec 0%nat).
Qed.

(** Once a best-so-far other than 0.0 is in place and no later loss falls
    below it, every epoch anneals: no checkpoint is written, and [lr] and
    the optimizer's rate are divided by 4 each time, for good. *)
Lemma run_policy_anneals {Model Rng : Type} (losses : list float) (best : float) :
  (best =? 0)%float = false →
  Forall (fun v => (v <? best)%float = false) losses →
  ∀ (epoch : Z) (c : controller (Model := Model))
    (w : world (Model := Model) (Rng := Rng)),
    best_val_loss c = Some best →
    ∀ k st, run_policy epoch losses (c, w) !! k = Some st →
      writes (fst st) = writes c
      ∧ c_lr (fst st) = annealed (S k) (c_lr c)
      ∧ opt_lr (snd st) = c_lr (fst st)
      ∧ best_val_loss (fst st) = Some best.
Proof.
  intros Hz Hall. induction Hall as [|v losses Hv _ IH];
    intros epoch c w Hbest k st Hst; [done|].
  cbn [run_policy] in Hst.
  rewrite (anneal_branch _ _ best) in Hst by done.
  destruct k as [|k].
  - injection Hst as <-. done.
  - cbn [lookup list_lookup] in Hst.
    apply IH in Hst as (Hwr & Hlr & Hopt & Hb); [|done].
    repeat split; try done. rewrite Hlr. cbn [c_lr]. unfold annealed.
    symmetry. exact (Nat.iter_succ_r (S k) (fun x => (x / 4)%float) (c_lr c)).
Qed.

Lemma increasing_above_first (v : float) (losses : list float) :
  strictly_increasing (v :: losses) →
  Forall (fun x => (x <? v)%float = false) losses.
Proof.
  intros Hinc.
  assert (Forall (fun x => (v <? x)%float = true) losses) as Habove.
  { revert v Hinc. induction losses as [|a losses IH]; intros v Hinc; [done|].
    assert ((v <? a)%float = true) as Hva by (by apply (Hinc 0%nat)).
    constructor; [done|].
    eapply Forall_impl; [apply (IH a)|].
    - intros k x y Hx Hy. by apply (Hinc (S k)).
    - intros x Hax. by apply (float_ltb_trans v a x). }
  eapply Forall_impl; [exact Habove|]. intros x. apply float_ltb_asym.
Qed.

(** X17. With validation losses that rise from epoch to epoch, the first
    of them not 0.0, the checkpoint is written at the first epoch only and
    both rates are divided by 4 at every later epoch. *)
Lemma run_policy_increasing {Model Rng : Type} (v : float) (losses : list float) :
  strictly_increasing (v :: losses) →
  (v =? 0)%float = false →
  ∀ (epoch : Z) (c : controller (Model := Model))
    (w : world (Model := Model) (Rng := Rng)),
    best_val_loss c = None →
    ∀ k st, run_policy epoch (v :: losses) (c, w) !! k = Some st →
      writes (fst st) = writes c ++ [epoch]
      ∧ c_lr (fst st) = annealed k (c_lr c)
      ∧ (0 < k → opt_lr (snd st) = c_lr (fst st))%nat
      ∧ best_val_loss (fst st) = Some v.
Proof.
  intros Hinc Hz epoch c w Hnone k st Hst.
  cbn [run_policy] in Hst.
  rewrite checkpoint_branch in Hst by (left; by rewrite Hnone).
  destruct k as [|k].
  - injection Hst as <-. simpl. repeat split; try done. lia.
  - cbn [lookup list_lookup] in Hst.
    eapply (run_policy_anneals losses v) in Hst as (Hwr & Hlr & Hopt & Hb);
      [|done|by apply increasing_above_first|done].
    done.
Qed.

Example run_policy_falling_losses :
  policy_outcome <$> run_policy 1 [3; 2; 1]%float
    (Controller 20%float None None [], World 20%float tt tt)
  = [([1], 20%float, 20%float); ([1; 2], 20%float, 20%float);
     ([1; 2; 3], 20%float, 20%float)].
Proof. reflexivity. Qed.

Example run_policy_rising_losses :
  policy_outcome <$> run_policy 1 [3; 4; 5]%float
    (Controller 20%float None None [], World 20%float tt tt)
  = [([1], 20%float, 20%float); ([1], 5%float, 5%float);
     ([1], 1.25%float, 1.25%float)].
Proof. reflexivity. Qed.

(** C4 at its failing input: validation losses 0, 1, 2.  They rise from
    epoch to epoch, yet the checkpoint is written again at epoch 2 and the
    rates are not divided by 4 at epoch 2: the policy takes the best-so-far
    0.0 for an unset one.  The first part is the policy alone, the second
    the whole epoch loop on a model with these validation losses. *)
Theorem rising_losses_from_zero :
  policy_outcome <$> run_policy 1 [0; 1; 2]%float
    (Controller 20%float None None [], World 20%float tt tt)
  = [([1], 20%float, 20%float); ([1; 2], 20%float, 20%float);
     ([1; 2], 5%float, 5%float)]
  ∧ (fun k => evaluate log_forward (log_criterion loss_by_epoch) example_args
                alphabet_stream (after_steps k) 10) <$> [3; 6; 9]%nat
    = [Ok 0%float; Ok 1%float; Ok 2%float]
  ∧ (fun r => (policy_outcome r, best_val_loss (fst r))) <$> rising_loss_run
    = Ok ([1; 2], 5%float, 5%float, Some 1%float).
Proof. repeat split; vm_compute; reflexivity. Qed.

(** ** [evaluate] *)

Lemma py_float_of_int_small (z : Z) :
  Z.abs z < 2 ^ 63 → py_float_of_int z = Ok (float_of_small z).
Proof.
  intros Hz. unfold py_float_of_int. by destruct (Z.ltb_spec (Z.abs z) (2 ^ 63)); [|lia].
Qed.

Lemma init_hidden_ok (args : Args) (bsz : Z) :
  0 ≤ nlayers args → 0 ≤ bsz → 0 ≤ nhid args →
  ∃ hid, init_hidden args bsz = Ok hid.
Proof.
  intros Hl Hb Hh. unfold init_hidden, new_zeros.
  destruct (Z.ltb_spec (nlayers args) 0); [lia|].
  destruct (Z.ltb_spec bsz 0); [lia|]. destruct (Z.ltb_spec (nhid args) 0); [lia|].
  destruct (model_is_lstm args); simpl; eauto.
Qed.

Section EvaluateFacts.
Context {Model Output : Type}.
Variable forward : Model → bool → tensor2 → hidden → Output * hidden.
Variable criterion : Output → tensor1 → float.

#[local] Abbreviation eval_body := (evaluate_step forward criterion).
#[local] Abbreviation losses_of := (window_losses forward criterion).

(** One iteration adds the window's length times its mean loss. *)
Lemma evaluate_step_ok (args : Args) (data : tensor2) (mdl : Model)
    (acc : float) (hid : hidden) (i : Z) :
  0 ≤ bptt args → len2 data < 2 ^ 63 → 0 ≤ i < len2 data - 1 →
  let seq_len := Z.min (bptt args) (len2 data - 1 - i) in
  let window := slice0 data i (i + seq_len) in
  let targets := storage (slice0 data (i + 1) (i + 1 + seq_len)) in
  let out := forward mdl false window hid in
  eval_body args data mdl (acc, hid) i
  = Ok ((acc + float_of_small seq_len * criterion (fst out) targets)%float,
        repackage_hidden (snd out)).
Proof.
  intros HW Hrows Hi seq_len window targets out.
  unfold evaluate_step, get_batch. fold seq_len.
  rewrite view_flat_ok. cbn [mbind result_bind]. fold window targets out.
  destruct out as [output hid'].
  assert (len2 window = seq_len) as ->.
  { unfold window. rewrite slice0_in_range by (unfold seq_len; lia).
    unfold len2 at 1. cbn [size0]. unfold seq_len. lia. }
  rewrite py_float_of_int_small by (unfold seq_len; lia). done.
Qed.

Lemma evaluate_loop (args : Args) (data : tensor2) (mdl : Model)
    (offsets : list Z) :
  0 ≤ bptt args → len2 data < 2 ^ 63 →
  Forall (fun i => 0 ≤ i < len2 data - 1) offsets →
  ∀ (acc : float) (hid : hidden),
  ∃ states,
    for_each (eval_body args data mdl) (acc, hid) offsets = Ok states
    ∧ fst (List.last states (acc, hid))
      = fold_left (fun acc '(n, loss) => (acc + float_of_small n * loss)%float)
          (losses_of args data mdl hid offsets) acc.
Proof.
  intros HW Hrows Hoffs. induction Hoffs as [|i offsets Hi _ IH]; intros acc hid.
  - by exists [].
  - cbn [for_each window_losses].
    rewrite evaluate_step_ok by done. cbn [mbind result_bind].
    destruct (forward mdl false _ hid) as [output hid']. cbn [fst snd].
    edestruct IH as (states & -> & Hlast).
    eexists. split; [reflexivity|]. cbn [fold_left].
    rewrite <-Hlast. destruct states as [|s states]; [done|].
    change (List.last (?a :: s :: states) ?d) with (List.last (s :: states) d).
    apply f_equal, last_nonempty.
Qed.

(** C7. An evaluation pass over a stream of [rows] rows iterates the
    offsets of the nominal window [args.bptt], slices every window with that
    window size ([window_losses]: lengths [min(bptt, rows - 1 - i)]), adds up
    window length times mean loss, and returns the sum divided by
    [(rows - 1) / world_size], provided neither division is by zero.  The
    pass reads no random generator and no learning rate: worlds with the
    same model evaluate alike. *)
Theorem evaluate_metric (args : Args) (data_source : tensor2) (mdl : Model)
    (eval_batch_size : Z) (hid : hidden) :
  1 ≤ bptt args →
  0 ≤ rank args →
  1 ≤ world_size args < 2 ^ 63 →
  len2 data_source < 2 ^ 63 →
  init_hidden args eval_batch_size = Ok hid →
  let d := float_of_small (len2 data_source - 1) in
  let ws := float_of_small (world_size args) in
  (ws =? 0)%float = false →
  (d / ws =? 0)%float = false →
  ∃ offsets,
    partition_offsets (bptt args) (rank args) (world_size args) (len2 data_source)
    = Ok offsets
    ∧ evaluate forward criterion args data_source mdl eval_batch_size
      = Ok (weighted_total (losses_of args data_source mdl hid offsets) / (d / ws))%float
    ∧ ∀ (Rng : Type) (w1 w2 : world (Model := Model) (Rng := Rng)),
        net w1 = net w2 →
        evaluate forward criterion args data_source (net w1) eval_batch_size
        = evaluate forward criterion args data_source (net w2) eval_batch_size.
Proof.
  intros HW Hrank Hws Hrows Hhid d ws Hws0 Hq0.
  exists (rank_offsets (bptt args) (world_size args) (len2 data_source) (rank args)).
  split; [apply partition_offsets_pos; lia|].
  split; [|by intros Rng w1 w2 ->].
  unfold evaluate. rewrite Hhid. cbn [mbind result_bind].
  fold (partition_offsets (bptt args) (rank args) (world_size args) (len2 data_source)).
  rewrite partition_offsets_pos by lia. cbn [mbind result_bind].
  destruct (evaluate_loop args data_source mdl
              (rank_offsets (bptt args) (world_size args) (len2 data_source) (rank args)))
    with (acc := 0%float) (hid := hid) as (states & -> & Hlast); [lia|done| |].
  { apply Forall_forall. intros i (k & Hk & -> & Hlt)%elem_of_rank_offsets; [|lia..].
    split; [nia|done]. }
  cbn [mbind result_bind]. rewrite Hlast.
  rewrite !py_float_of_int_small by (unfold len2 in *; lia).
  cbn [mbind result_bind]. fold d ws. unfold py_truediv.
  rewrite Hws0. cbn [mbind result_bind]. rewrite Hq0. done.
Qed.
End EvaluateFacts.

Lemma evaluate_metric_witness :
  ∃ offsets,
    partition_offsets 2 0 1 6 = Ok offsets
    ∧ evaluate log_forward (log_criterion loss_by_epoch) example_args
        alphabet_stream (after_steps 6) 10
      = Ok 1%float.
Proof.
  destruct (init_hidden_ok example_args 10) as [hid Hhid]; [done..|].
  destruct (evaluate_metric log_forward (log_criterion loss_by_epoch)
              example_args alphabet_stream (after_steps 6) 10 hid)
    as (offsets & Hoff & Heval & _); [done..|].
  exists offsets. split; [exact Hoff|].
  vm_compute in Hhid. injection Hhid as <-.
  vm_compute in Hoff. injection Hoff as <-.
  rewrite Heval. vm_compute. reflexivity.
Defined.

Example evaluate_single_row :
  evaluate log_forward (log_criterion loss_by_epoch) example_args
    (index_stream 1) (after_steps 6) 10
  = Raise ZeroDivisionError.
Proof. reflexivity. Qed.

(** * Further properties *)

(** ** [init_hidden] *)

(** X1. A hidden state that [init_hidden] returns is all zeros, of shape
    [[nlayers, bsz, nhid]] (a pair of such tensors for an LSTM, one tensor
    otherwise), carries no history, and is left as it is by
    [repackage_hidden]. *)
Theorem init_hidden_fresh (args : Args) (bsz : Z) (h : hidden) :
  init_hidden args bsz = Ok h →
  let zeros := VTensor [nlayers args; bsz; nhid args]
                 (replicate (Z.to_nat (nlayers args * bsz * nhid args)) 0%float) in
  hidden_values h = (if model_is_lstm args then VTuple [zeros; zeros] else zeros)
  ∧ no_history h = true
  ∧ history_depth h = 0%nat
  ∧ repackage_hidden h = h.
Proof.
  intros H zeros. subst zeros. unfold init_hidden, new_zeros in H.
  destruct ((nlayers args <? 0) || (bsz <? 0) || (nhid args <? 0));
    [by destruct (model_is_lstm args)|].
  destruct (model_is_lstm args); injection H as <-; done.
Qed.

Lemma init_hidden_fresh_witness :
  ∃ h, init_hidden example_args 4 = Ok h
    ∧ hidden_values h
      = VTuple [VTensor [1; 4; 2] (replicate 8 0%float);
                VTensor [1; 4; 2] (replicate 8 0%float)]
    ∧ repackage_hidden h = h.
Proof.
  destruct (init_hidden example_args 4) as [h|] eqn:E; [|discriminate E].
  exists h. split; [reflexivity|].
  destruct (init_hidden_fresh example_args 4 h E) as (Hv & _ & _ & Hr).
  split; [exact Hv|exact Hr].
Defined.


(** ** The layout [batchify] produces *)

Lemma nth_take {A : Type} (l : list A) (d : A) (n k : nat) :
  (k < n)%nat → nth k (take n l) d = nth k l d.
Proof. intros Hk. by rewrite !nth_lookup, lookup_take_lt. Qed.

Lemma nth_take_drop {A : Type} (l : list A) (d : A) (a n k : nat) :
  (k < n)%nat → nth k (take n (drop a l)) d = nth (a + k) l d.
Proof. intros Hk. by rewrite !nth_lookup, lookup_take_lt, lookup_drop. Qed.

(** What [batchify] returns for a positive batch size, entry by entry. *)
Lemma batchify_layout (data : tensor1) (B : Z) :
  1 ≤ B →
  ∃ m : tensor2,
    batchify data B = Ok m
    ∧ size0 m = Z.to_nat (tensor1_size data / B)
    ∧ size1 m = Z.to_nat B
    ∧ wf_tensor2 m
    ∧ ∀ r c : nat, (r < size0 m)%nat → (c < size1 m)%nat →
        get2 m r c = nth (c * size0 m + r) data 0.
Proof.
  intros HB. eexists. split; [by apply batchify_ok|].
  split; [done|]. split; [done|]. split; [apply wf_t|].
  intros r c Hr Hc. unfold get2. cbn [t size0 size1 storage] in *.
  rewrite nth_grid by done. unfold get2. cbn [size0 size1 storage].
  apply nth_take.
  pose proof (Z.div_pos (tensor1_size data) B) as Hq.
  unfold tensor1_size in *. nia.
Qed.

(** X3. For a batch size [B >= 1], the entry at row [r] and column [c] of
    the batched stream is token [c * rows + r] of the sequence: column [c]
    is the [c]-th run of [rows = L / B] consecutive tokens, as in the
    picture above [batchify]. *)
Theorem batchify_entry (data : tensor1) (B : Z) :
  1 ≤ B →
  ∃ m : tensor2,
    batchify data B = Ok m
    ∧ size0 m = Z.to_nat (tensor1_size data / B)
    ∧ size1 m = Z.to_nat B
    ∧ ∀ r c : nat, (r < size0 m)%nat → (c < size1 m)%nat →
        get2 m r c = nth (c * size0 m + r) data 0.
Proof.
  intros HB. destruct (batchify_layout data B HB) as (m & Hm & H0 & H1 & _ & Hget).
  exists m. done.
Qed.

Lemma batchify_entry_witness :
  ∃ m : tensor2,
    batchify (seqZ 0 26) 4 = Ok m
    ∧ size0 m = 6%nat
    ∧ get2 m 1 2 = 13.
Proof.
  destruct (batchify_entry (seqZ 0 26) 4) as (m & Hm & H0 & H1 & Hget); [lia|].
  exists m. split; [exact Hm|]. split; [exact H0|].
  rewrite Hget by (rewrite ?H0, ?H1; vm_compute; lia).
  rewrite H0. reflexivity.
Defined.

(** ** Windows *)

(** Where [slice0] cuts: a block of consecutive rows inside the tensor,
    whatever the bounds. *)
Lemma slice0_block (m : tensor2) (a b : Z) :
  ∃ lo n : nat,
    (lo + n ≤ size0 m)%nat
    ∧ slice0 m a b
      = Tensor2 n (size1 m) (take (n * size1 m) (drop (lo * size1 m) (storage m))).
Proof.
  unfold slice0. eexists _, _. split; [|reflexivity].
  repeat match goal with
         | |- context [?x <? ?y] => destruct (Z.ltb_spec x y)
         | |- context [?x <=? ?y] => destruct (Z.leb_spec x y)
         end; lia.
Qed.

Lemma block_wf (m : tensor2) (lo n : nat) :
  wf_tensor2 m → (lo + n ≤ size0 m)%nat →
  wf_tensor2 (Tensor2 n (size1 m) (take (n * size1 m) (drop (lo * size1 m) (storage m)))).
Proof.
  unfold wf_tensor2. cbn [size0 size1 storage]. intros Hwf Hle.
  rewrite length_take, length_drop. nia.
Qed.

(** [get_batch] inside the stream. *)
Lemma get_batch_inside (args : Args) (S : tensor2) (i : Z) :
  0 ≤ i → 0 ≤ window_length (bptt args) (len2 S) i →
  let n := Z.to_nat (window_length (bptt args) (len2 S) i) in
  get_batch args S i
  = Ok (Tensor2 n (size1 S)
          (take (n * size1 S) (drop (Z.to_nat i * size1 S) (storage S))),
        take (n * size1 S) (drop ((Z.to_nat i + 1) * size1 S) (storage S))).
Proof.
  intros Hi Hlen n. unfold window_length in *. unfold get_batch.
  rewrite view_flat_ok. cbn [mbind result_bind].
  rewrite !slice0_in_range by lia. cbn [storage].
  replace (Z.to_nat (i + _ - i)) with n by (unfold n; lia).
  replace (Z.to_nat (i + 1 + _ - (i + 1))) with n by (unfold n; lia).
  replace (Z.to_nat (i + 1)) with (Z.to_nat i + 1)%nat by lia. done.
Qed.

(** X4. Next-token targets.  Batch a token sequence with batch size
    [B >= 1] and take the window at an offset [0 <= i < rows - 1]: the input
    at step [k] of column [c] is token [c * rows + i + k] of the sequence,
    and the target at position [k * B + c] is the token that follows it in
    the sequence. *)
Theorem get_batch_next_token (args : Args) (data : tensor1) (B i : Z) :
  1 ≤ B →
  0 ≤ bptt args →
  let rows := tensor1_size data / B in
  0 ≤ i < rows - 1 →
  ∃ (m inp : tensor2) (target : tensor1),
    batchify data B = Ok m
    ∧ get_batch args m i = Ok (inp, target)
    ∧ ∀ k c : nat,
        Z.of_nat k < window_length (bptt args) rows i → Z.of_nat c < B →
        get2 inp k c = nth (c * Z.to_nat rows + (Z.to_nat i + k)) data 0
        ∧ nth (k * Z.to_nat B + c) target 0
          = nth (c * Z.to_nat rows + (Z.to_nat i + k) + 1) data 0.
Proof.
  intros HB HW rows Hi.
  destruct (batchify_layout data B HB) as (m & Hm & H0 & H1 & Hwf & Hget).
  fold rows in H0.
  assert (len2 m = rows) as Hrows by (unfold len2; lia).
  assert (0 ≤ window_length (bptt args) (len2 m) i) as Hlen
    by (unfold window_length; lia).
  eexists m, _, _. split; [exact Hm|].
  split; [apply get_batch_inside; lia|].
  rewrite Hrows, H1. intros k c Hk Hc. unfold get2. cbn [size1 storage].
  set (n := Z.to_nat (window_length (bptt args) rows i)) in *.
  assert ((Z.to_nat i + k) + 1 < size0 m)%nat as Hr
    by (unfold window_length in *; lia).
  rewrite !nth_take_drop by nia.
  replace (Z.to_nat i * Z.to_nat B + (k * Z.to_nat B + c))%nat
    with ((Z.to_nat i + k) * size1 m + c)%nat by (rewrite H1; lia).
  replace ((Z.to_nat i + 1) * Z.to_nat B + (k * Z.to_nat B + c))%nat
    with ((Z.to_nat i + k + 1) * size1 m + c)%nat by (rewrite H1; lia).
  fold (get2 m (Z.to_nat i + k) c). fold (get2 m (Z.to_nat i + k + 1) c).
  rewrite !Hget by lia. rewrite H0. split; f_equal; lia.
Qed.

Lemma get_batch_next_token_witness :
  ∃ (m inp : tensor2) (target : tensor1),
    batchify (seqZ 100 26) 4 = Ok m
    ∧ get_batch example_args m 3 = Ok (inp, target)
    ∧ get2 inp 1 2 = 116
    ∧ nth (1 * 4 + 2) target 0 = 117.
Proof.
  destruct (get_batch_next_token example_args (seqZ 100 26) 4 3)
    as (m & inp & target & Hm & Hg & Hnext); [lia|done|done|].
  exists m, inp, target. split; [exact Hm|]. split; [exact Hg|].
  destruct (Hnext 1%nat 2%nat) as [Hin Htg]; [done|done|].
  split; [rewrite Hin|change (1 * 4 + 2)%nat with (1 * Z.to_nat 4 + 2)%nat; rewrite Htg];
    reflexivity.
Defined.

(** X5. At or past the last row nothing is left to predict: for a window
    size [args.bptt >= 0] and an offset [i >= 0] with [i >= rows - 1],
    [get_batch] raises nothing and returns an input of no rows and an empty
    target. *)
Theorem get_batch_past_end (args : Args) (S : tensor2) (i : Z) :
  0 ≤ bptt args → 0 ≤ i → len2 S - 1 ≤ i →
  get_batch args S i = Ok (Tensor2 0 (size1 S) [], []).
Proof.
  intros HW Hi Hend. unfold get_batch. rewrite view_flat_ok.
  cbn [mbind result_bind].
  assert (∀ a b, (Z.of_nat (size0 S) ≤ a ∨ (a = Z.of_nat (size0 S) - 1 ∧ b = a)) →
                 0 ≤ a → -1 ≤ b ≤ Z.of_nat (size0 S) →
                 (Z.of_nat (size0 S) = 0 ∨ 0 ≤ b) →
                 slice0 S a b = Tensor2 0 (size1 S) []) as Hempty.
  { intros a b Ha Ha0 Hb Hb0. unfold slice0.
    match goal with
    | |- Tensor2 (Z.to_nat ?d) _ _ = _ => assert (Z.to_nat d = 0%nat) as ->; [|done]
    end.
    destruct (Z.ltb_spec a 0); [lia|].
    destruct (Z.ltb_spec b 0); destruct (Z.leb_spec (Z.of_nat (size0 S)) a);
      cbv iota;
      repeat match goal with
             | |- context [?x <? ?y] => destruct (Z.ltb_spec x y); cbv iota
             | |- context [?x <=? ?y] => destruct (Z.leb_spec x y); cbv iota
             end; lia. }
  unfold len2 in *.
  rewrite !Hempty; [done|lia..].
Qed.

Lemma get_batch_past_end_witness :
  get_batch example_args alphabet_stream 5 = Ok (Tensor2 0 4 [], [])
  ∧ get_batch example_args alphabet_stream 9 = Ok (Tensor2 0 4 [], []).
Proof.
  split.
  - apply (get_batch_past_end example_args alphabet_stream 5); vm_compute; discriminate.
  - reflexivity.
Defined.

(** X6. [get_batch] raises for no offset and no window size, negative ones
    included: out-of-range bounds are clamped.  On a well-formed stream the
    input is a well-formed block of consecutive rows of the stream, with
    all its columns, and the target is a whole number of rows of the
    stream. *)
Theorem get_batch_total (args : Args) (S : tensor2) (i : Z) :
  wf_tensor2 S →
  ∃ (inp : tensor2) (target : tensor1) (lo lo' n' : nat),
    get_batch args S i = Ok (inp, target)
    ∧ wf_tensor2 inp
    ∧ size1 inp = size1 S
    ∧ (lo + size0 inp ≤ size0 S)%nat
    ∧ storage inp = take (size0 inp * size1 S) (drop (lo * size1 S) (storage S))
    ∧ (lo' + n' ≤ size0 S)%nat
    ∧ target = take (n' * size1 S) (drop (lo' * size1 S) (storage S))
    ∧ length target = (n' * size1 S)%nat.
Proof.
  intros Hwf. unfold get_batch. rewrite view_flat_ok. cbn [mbind result_bind].
  destruct (slice0_block S i (i + Z.min (bptt args) (len2 S - 1 - i)))
    as (lo & n & Hle & ->).
  destruct (slice0_block S (i + 1) (i + 1 + Z.min (bptt args) (len2 S - 1 - i)))
    as (lo' & n' & Hle' & ->).
  eexists _, _, lo, lo', n'. split; [reflexivity|]. cbn [size0 size1 storage].
  split; [by apply block_wf|]. repeat (split; [done|]).
  pose proof (block_wf S lo' n' Hwf Hle') as Hwf'. exact Hwf'.
Qed.

Lemma get_batch_total_witness :
  ∃ (inp : tensor2) (target : tensor1),
    get_batch (MkArgs true 2 1 20%float 3 4 (-3) 0 1) alphabet_stream (-2)
    = Ok (inp, target)
    ∧ wf_tensor2 inp
    ∧ size1 inp = 4%nat.
Proof.
  destruct (get_batch_total (MkArgs true 2 1 20%float 3 4 (-3) 0 1) alphabet_stream (-2))
    as (inp & target & lo & lo' & n' & Hg & Hwf & H1 & _); [reflexivity|].
  exists inp, target. split; [exact Hg|]. split; [exact Hwf|exact H1].
Defined.

(** ** The windows of a whole pass *)

Lemma range_length_nonneg (lo hi step : Z) :
  0 < step → 0 ≤ range_length lo hi step.
Proof.
  intros Hstep. unfold range_length. destruct (Z.ltb_spec lo hi); [|lia].
  pose proof (Z.div_pos (hi - 1 - lo) step). lia.
Qed.

Lemma range_length_step (lo hi step : Z) :
  0 < step → lo < hi →
  range_length lo hi step = 1 + range_length (lo + step) hi step.
Proof.
  intros Hstep Hlt. unfold range_length.
  destruct (Z.ltb_spec lo hi); [|lia].
  destruct (Z.ltb_spec (lo + step) hi).
  - replace (hi - 1 - lo) with (hi - 1 - (lo + step) + 1 * step) by lia.
    rewrite Z.div_add by lia. lia.
  - rewrite Z.div_small by lia. lia.
Qed.

(** The values of a [range] with a positive step, first value first. *)
Lemma range_pos_cons (start stop step : Z) :
  0 < step → start < stop →
  (fun k => start + k * step) <$> seqZ 0 (range_length start stop step)
  = start :: ((fun k => (start + step) + k * step)
                <$> seqZ 0 (range_length (start + step) stop step)).
Proof.
  intros Hstep Hlt. rewrite (range_length_step start) by done.
  pose proof (range_length_nonneg (start + step) stop step Hstep).
  rewrite seqZ_cons by lia. cbn [fmap list_fmap]. f_equal; [lia|].
  replace (Z.pred (1 + range_length (start + step) stop step))
    with (range_length (start + step) stop step) by lia.
  rewrite <-(fmap_add_seqZ 1 0). rewrite <-list_fmap_compose.
  apply list_fmap_ext. intros _ k _. simpl. lia.
Qed.

Lemma range_pos_nil (start stop step : Z) :
  stop ≤ start →
  (fun k => start + k * step) <$> seqZ 0 (range_length start stop step) = [].
Proof.
  intros Hle. unfold range_length. destruct (Z.ltb_spec start stop); [lia|done].
Qed.

(** The windows at the offsets [a, a + W, ...] below [rows - 1]: their
    inputs, one after the other, are the rows [a .. rows - 2] of the stream
    and their targets the rows [a + 1 .. rows - 1]. *)
Lemma windows_from (args : Args) (S : tensor2) (fuel : nat) :
  1 ≤ bptt args →
  ∀ a : Z, 0 ≤ a → len2 S - 1 - a ≤ Z.of_nat fuel →
  ∃ windows,
    windows_at args S
      ((fun k => a + k * bptt args)
         <$> seqZ 0 (range_length a (len2 S - 1) (bptt args)))
    = Ok windows
    ∧ concat ((fun w => storage (fst w)) <$> windows)
      = take ((size0 S - 1 - Z.to_nat a) * size1 S)
          (drop (Z.to_nat a * size1 S) (storage S))
    ∧ concat (snd <$> windows)
      = take ((size0 S - 1 - Z.to_nat a) * size1 S)
          (drop ((Z.to_nat a + 1) * size1 S) (storage S))
    ∧ sumZ ((fun w => len2 (fst w)) <$> windows) = Z.max 0 (len2 S - 1 - a).
Proof.
  intros HW. induction fuel as [|fuel IH]; intros a Ha Hfuel.
  - rewrite range_pos_nil by lia. exists []. cbn [windows_at fmap list_fmap concat].
    replace (size0 S - 1 - Z.to_nat a)%nat with 0%nat by (unfold len2 in *; lia).
    unfold sumZ. simpl. split; [done|]. split; [done|]. split; [done|]. lia.
  - destruct (Z.le_gt_cases (len2 S - 1) a) as [Hend|Hin].
    { rewrite range_pos_nil by lia. exists []. cbn [windows_at fmap list_fmap concat].
      replace (size0 S - 1 - Z.to_nat a)%nat with 0%nat by (unfold len2 in *; lia).
      unfold sumZ. simpl. split; [done|]. split; [done|]. split; [done|]. lia. }
    rewrite range_pos_cons by lia. cbn [windows_at].
    rewrite get_batch_inside by (unfold window_length; lia).
    cbn [mbind result_bind].
    destruct (IH (a + bptt args)) as (rest & -> & Hin_rest & Htg_rest & Hsum);
      [lia|lia|].
    cbn [mbind result_bind]. eexists. split; [reflexivity|].
    cbn [fmap list_fmap concat fst snd storage]. rewrite Hin_rest, Htg_rest.
    unfold sumZ in *. cbn [foldr]. rewrite Hsum. unfold len2 at 1. cbn [size0].
    set (n := Z.to_nat (window_length (bptt args) (len2 S) a)).
    assert (Z.to_nat (a + bptt args) = Z.to_nat a + Z.to_nat (bptt args))%nat
      as -> by lia.
    unfold window_length, len2 in *.
    destruct (Z.le_gt_cases (bptt args) (Z.of_nat (size0 S) - 1 - a)) as [Hfull|Hlast].
    + assert (n = Z.to_nat (bptt args)) as Hn by (unfold n; lia).
      rewrite <-Hn.
      replace (size0 S - 1 - Z.to_nat a)%nat
        with (n + (size0 S - 1 - (Z.to_nat a + n)))%nat by lia.
      rewrite !Nat.mul_add_distr_r, <-!take_take_drop, !drop_drop.
      repeat split; cbn [size0]; try (do 3 f_equal; lia); lia.
    + assert (n = size0 S - 1 - Z.to_nat a)%nat as Hn by (unfold n; lia).
      replace (size0 S - 1 - (Z.to_nat a + Z.to_nat (bptt args)))%nat
        with 0%nat by lia.
      rewrite Hn. cbn [Nat.mul take]. rewrite !app_nil_r.
      repeat split; cbn [size0]; try done; try lia. f_equal. lia.
Qed.

(** X7. One worker's windows tile the stream: for a window size [W >= 1]
    and a single worker, [get_batch] at the offsets [0, W, 2W, ...] returns
    inputs that, one after the other, are exactly the rows [0 .. rows - 2]
    of the stream, each once, and targets that are exactly the rows
    [1 .. rows - 1]; the window lengths add up to [rows - 1]. *)
Theorem windows_tile_stream (args : Args) (S : tensor2) :
  1 ≤ bptt args →
  1 ≤ len2 S →
  ∃ offsets windows,
    partition_offsets (bptt args) 0 1 (len2 S) = Ok offsets
    ∧ windows_at args S offsets = Ok windows
    ∧ concat ((fun w => storage (fst w)) <$> windows)
      = take ((size0 S - 1) * size1 S) (storage S)
    ∧ concat (snd <$> windows)
      = take ((size0 S - 1) * size1 S) (drop (size1 S) (storage S))
    ∧ sumZ ((fun w => len2 (fst w)) <$> windows) = len2 S - 1.
Proof.
  intros HW Hrows.
  destruct (windows_from args S (size0 S) HW 0) as (windows & Hw & Hin & Htg & Hsum);
    [lia|unfold len2; lia|].
  exists (rank_offsets (bptt args) 1 (len2 S) 0), windows.
  split; [apply partition_offsets_pos; lia|].
  split.
  { rewrite <-Hw. f_equal. unfold rank_offsets.
    rewrite Z.mul_0_r, Z.mul_1_r. done. }
  rewrite Hin, Htg, Hsum. change (Z.to_nat 0) with 0%nat.
  rewrite Nat.sub_0_r, Nat.mul_0_l, Nat.add_0_l, Nat.mul_1_l.
  split; [done|]. split; [done|]. lia.
Qed.

Lemma windows_tile_stream_witness :
  ∃ windows,
    windows_at example_args alphabet_stream [0; 2; 4] = Ok windows
    ∧ concat (snd <$> windows)
      = [1; 7; 13; 19; 2; 8; 14; 20; 3; 9; 15; 21; 4; 10; 16; 22; 5; 11; 17; 23]
    ∧ sumZ ((fun w => len2 (fst w)) <$> windows) = 5.
Proof.
  destruct (windows_tile_stream example_args alphabet_stream)
    as (offsets & windows & Hoff & Hw & _ & Htg & Hsum); [done|done|].
  vm_compute in Hoff. injection Hoff as <-.
  exists windows. split; [exact Hw|]. split; [exact Htg|exact Hsum].
Defined.

(** ** The work of the ranks *)

Lemma sumZ_Permutation (l k : list Z) : l ≡ₚ k → sumZ l = sumZ k.
Proof.
  unfold sumZ. induction 1 as [|x l k _ IH|x y l|l1 l2 l3 _ IH1 _ IH2]; simpl; lia.
Qed.

Lemma rank_offsets_Permutation (W ws rows : Z) :
  1 ≤ W → 1 ≤ ws →
  seqZ 0 ws ≫= rank_offsets W ws rows ≡ₚ rank_offsets W 1 rows 0.
Proof.
  intros HW Hws. apply NoDup_Permutation.
  - apply NoDup_bind; [|intros; apply range_pos_NoDup; nia|apply NoDup_seqZ].
    intros r1 r2 x Hr1%elem_of_seqZ Hr2%elem_of_seqZ.
    apply rank_offsets_disjoint; (done || lia).
  - apply range_pos_NoDup. lia.
  - intros x. by apply rank_offsets_union.
Qed.

Lemma window_lengths_from (W R : Z) (fuel : nat) :
  1 ≤ W →
  ∀ a : Z, R - a ≤ Z.of_nat fuel →
  sumZ (window_length W (R + 1)
          <$> ((fun k => a + k * W) <$> seqZ 0 (range_length a R W)))
  = Z.max 0 (R - a).
Proof.
  intros HW. induction fuel as [|fuel IH]; intros a Hfuel.
  - rewrite range_pos_nil by lia. unfold sumZ. simpl. lia.
  - destruct (Z.le_gt_cases R a) as [Hend|Hin].
    { rewrite range_pos_nil by lia. unfold sumZ. simpl. lia. }
    rewrite range_pos_cons by lia. cbn [fmap list_fmap].
    unfold sumZ in *. cbn [foldr]. rewrite IH by lia.
    unfold window_length. lia.
Qed.

(** X8. Over all the ranks of a group together every target row is used
    once: for a window size [W >= 1], a world size [ws >= 1] and a stream
    with at least one row, the lengths [min(W, rows - 1 - i)] of the windows
    at all the offsets [i] of all the ranks add up to [rows - 1]. *)
Theorem ranks_window_lengths (W ws rows : Z) :
  1 ≤ W → 1 ≤ ws → 1 ≤ rows →
  ∃ per_rank : Z → list Z,
    (∀ r, 0 ≤ r < ws → partition_offsets W r ws rows = Ok (per_rank r))
    ∧ sumZ (window_length W rows <$> (seqZ 0 ws ≫= per_rank)) = rows - 1.
Proof.
  intros HW Hws Hrows. exists (rank_offsets W ws rows).
  split; [intros; by apply partition_offsets_pos|].
  rewrite (sumZ_Permutation _ (window_length W rows <$> rank_offsets W 1 rows 0)).
  - unfold rank_offsets. rewrite Z.mul_0_r, Z.mul_1_r.
    replace rows with (rows - 1 + 1) at 1 by lia.
    rewrite (window_lengths_from W (rows - 1) (Z.to_nat rows)) by lia. lia.
  - apply fmap_Permutation. by apply rank_offsets_Permutation.
Qed.

Lemma ranks_window_lengths_witness :
  ∃ per_rank : Z → list Z,
    (∀ r, 0 ≤ r < 3 → partition_offsets 35 r 3 300 = Ok (per_rank r))
    ∧ sumZ (window_length 35 300 <$> (seqZ 0 3 ≫= per_rank)) = 300 - 1.
Proof. apply (ranks_window_lengths 35 3 300); lia. Defined.

(** X9. The ranks do not get the same number of steps in general, but
    nearly: for [W >= 1] and ranks [r1 <= r2] of a group of [ws], rank [r2]
    iterates as many offsets as rank [r1] or one fewer. *)
Theorem ranks_step_counts (W ws rows r1 r2 : Z) :
  1 ≤ W → 0 ≤ r1 → r1 ≤ r2 → r2 < ws →
  ∃ offsets1 offsets2,
    partition_offsets W r1 ws rows = Ok offsets1
    ∧ partition_offsets W r2 ws rows = Ok offsets2
    ∧ (length offsets2 ≤ length offsets1 ≤ length offsets2 + 1)%nat.
Proof.
  intros HW Hr1 Hr12 Hr2.
  exists (rank_offsets W ws rows r1), (rank_offsets W ws rows r2).
  split; [apply partition_offsets_pos; lia|].
  split; [apply partition_offsets_pos; lia|].
  unfold rank_offsets. rewrite !length_fmap, !length_seqZ.
  assert (0 < W * ws) as Hstep by nia.
  pose proof (range_length_nonneg (W * r1) (rows - 1) (W * ws) Hstep).
  pose proof (range_length_nonneg (W * r2) (rows - 1) (W * ws) Hstep).
  assert (range_length (W * r2) (rows - 1) (W * ws)
          ≤ range_length (W * r1) (rows - 1) (W * ws)
          ≤ range_length (W * r2) (rows - 1) (W * ws) + 1); [|lia].
  unfold range_length.
  destruct (Z.ltb_spec (W * r1) (rows - 1)), (Z.ltb_spec (W * r2) (rows - 1));
    try nia.
  - pose proof (Z.div_le_mono (rows - 1 - 1 - W * r2) (rows - 1 - 1 - W * r1)
                  (W * ws) Hstep ltac:(nia)).
    pose proof (Z.div_le_mono (rows - 1 - 1 - W * r1)
                  (rows - 1 - 1 - W * r2 + 1 * (W * ws)) (W * ws) Hstep ltac:(nia))
      as Hup.
    rewrite Z.div_add in Hup by lia. lia.
  - rewrite Z.div_small by nia. lia.
Qed.

Lemma ranks_step_counts_witness :
  ∃ offsets1 offsets2,
    partition_offsets 35 0 3 200 = Ok offsets1
    ∧ partition_offsets 35 2 3 200 = Ok offsets2
    ∧ (length offsets2 ≤ length offsets1 ≤ length offsets2 + 1)%nat.
Proof. apply (ranks_step_counts 35 3 200 0 2); lia. Defined.

Example ranks_uneven_steps :
  partition_offsets 35 0 3 200 = Ok [0; 105]
  ∧ partition_offsets 35 2 3 200 = Ok [70; 175]
  ∧ partition_offsets 35 0 3 100 = Ok [0]
  ∧ partition_offsets 35 2 3 100 = Ok [70]
  ∧ partition_offsets 35 2 3 60 = Ok [].
Proof. repeat split; reflexivity. Qed.

(** ** Floats that are numbers

    The conversion of an integer never gives a NaN, and zero divided by a
    number other than zero is zero. *)

Lemma shr_1_nonneg (mrs : shr_record) : 0 ≤ shr_m mrs → 0 ≤ shr_m (shr_1 mrs).
Proof. destruct mrs as [[|[p|p|]|[p|p|]] r s]; simpl; lia. Qed.

Lemma iter_pos_shr_1_nonneg (p : positive) (mrs : shr_record) :
  0 ≤ shr_m mrs → 0 ≤ shr_m (SpecFloat.iter_pos shr_1 p mrs).
Proof.
  revert mrs. induction p as [p IH|p IH|]; intros mrs Hm; simpl;
    auto using shr_1_nonneg.
Qed.

Lemma shr_fexp_nonneg (m e : Z) (l : location) :
  0 ≤ m → 0 ≤ shr_m (fst (shr_fexp prec emax m e l)).
Proof.
  intros Hm. unfold shr_fexp, shr.
  assert (0 ≤ shr_m (shr_record_of_loc m l)) as H0
    by (by destruct l as [|[]]).
  destruct (fexp prec emax (Zdigits2 m + e) - e); [done| |done].
  by apply iter_pos_shr_1_nonneg.
Qed.

Lemma round_nearest_even_nonneg (m : Z) (l : location) :
  0 ≤ m → 0 ≤ round_nearest_even m l.
Proof. intros Hm. destruct l as [|[]]; simpl; try lia. destruct (Z.even m); lia. Qed.

Lemma binary_round_aux_not_nan (sx : bool) (p : positive) (e : Z) (l : location) :
  binary_round_aux prec emax sx (Z.pos p) e l ≠ S754_nan.
Proof.
  unfold binary_round_aux.
  pose proof (shr_fexp_nonneg (Z.pos p) e l ltac:(lia)) as H1.
  destruct (shr_fexp prec emax (Z.pos p) e l) as [mrs' e'].
  pose proof (shr_fexp_nonneg
                (round_nearest_even (shr_m mrs') (loc_of_shr_record mrs')) e' loc_Exact
                (round_nearest_even_nonneg _ _ H1)) as H2.
  destruct (shr_fexp prec emax _ e' loc_Exact) as [mrs'' e''].
  simpl in H2. destruct (shr_m mrs''); [done| |lia].
  by destruct (_ <=? _).
Qed.

Lemma binary_normalize_not_nan (m e : Z) (szero : bool) :
  binary_normalize prec emax m e szero ≠ S754_nan.
Proof.
  unfold binary_normalize, binary_round. destruct m as [|p|p]; [done|..];
    destruct (shl_align _ _ _); apply binary_round_aux_not_nan.
Qed.

Lemma SFcompare_refl (x : spec_float) : x ≠ S754_nan → SFcompare x x = Some Eq.
Proof.
  destruct x as [s|s| |s m e]; [done|by destruct s|done|].
  intros _. simpl. rewrite Z.compare_refl, Pos.compare_cont_refl. by destruct s.
Qed.

Lemma float_of_small_number (z : Z) :
  Prim2SF (float_of_small z) ≠ S754_nan.
Proof.
  unfold float_of_small. destruct (z <? 0).
  - rewrite opp_spec, of_uint63_spec.
    pose proof (binary_normalize_not_nan (Uint63.to_Z (Uint63.of_Z (- z))) 0 false).
    by destruct (binary_normalize _ _ _ _ _).
  - rewrite of_uint63_spec. apply binary_normalize_not_nan.
Qed.

Lemma zero_div_number (w : float) :
  Prim2SF w ≠ S754_nan →
  (w =? 0)%float = false →
  (0 / w =? 0)%float = true.
Proof.
  intros Hnan Hz. rewrite FloatAxioms.eqb_spec in Hz.
  rewrite FloatAxioms.eqb_spec, div_spec.
  change (Prim2SF 0) with (S754_zero false) in *.
  destruct (Prim2SF w) as [s|s| |s m e]; try done.
Qed.

(** ** The edges of [evaluate] and [train] *)

Section Edges.
Context {Model Output Rng : Type}.
Variable forward : Model → bool → tensor2 → hidden → Output * hidden.
Variable criterion : Output → tensor1 → float.
Variable sgd_step : Model → float → tensor2 → hidden → tensor1 → Model.
Variable np_random : Rng → float * Rng.
Variable np_normal : float → float → Rng → float * Rng.

(** The loop of [evaluate] raises nothing, at whatever offsets. *)
Lemma evaluate_loop_returns (args : Args) (data : tensor2) (mdl : Model)
    (offsets : list Z) (st : float * hidden) :
  len2 data < 2 ^ 63 →
  ∃ states,
    for_each (evaluate_step forward criterion args data mdl) st offsets = Ok states.
Proof.
  intros Hrows. revert st.
  induction offsets as [|i offsets IH]; intros [acc hid]; [by exists []|].
  cbn [for_each].
  assert (∃ st', evaluate_step forward criterion args data mdl (acc, hid) i = Ok st')
    as [st' ->].
  { unfold evaluate_step, get_batch. rewrite view_flat_ok. cbn [mbind result_bind].
    destruct (slice0_block data i (i + Z.min (bptt args) (len2 data - 1 - i)))
      as (lo & n & Hle & ->).
    destruct (forward _ _ _ _) as [output hid'].
    rewrite py_float_of_int_small by (unfold len2 in *; cbn [size0]; lia).
    cbn [mbind result_bind]. eauto. }
  cbn [mbind result_bind]. edestruct IH as [states ->].
  cbn [mbind result_bind]. eauto.
Qed.

(** X10. A worker whose first offset [args.bptt * args.rank] lies at or
    beyond the last row has no window to evaluate: its pass runs no forward
    pass and returns [0.0 / ((rows - 1) / world_size)], the same for every
    model. *)
Theorem evaluate_no_window (args : Args) (data_source : tensor2)
    (eval_batch_size : Z) (hid : hidden) :
  1 ≤ bptt args →
  1 ≤ world_size args →
  len2 data_source - 1 ≤ bptt args * rank args →
  init_hidden args eval_batch_size = Ok hid →
  ∀ mdl : Model,
    evaluate forward criterion args data_source mdl eval_batch_size
    = (d ← py_float_of_int (len2 data_source - 1);
       w ← py_float_of_int (world_size args);
       q ← py_truediv d w;
       py_truediv 0%float q).
Proof.
  intros HW Hws Hpast Hhid mdl. unfold evaluate. rewrite Hhid.
  cbn [mbind result_bind]. rewrite py_range_pos by nia.
  rewrite range_pos_nil by lia. done.
Qed.

(** On a stream of one row the divisor of [evaluate] is zero. *)
Lemma evaluate_divisor_zero (args : Args) (data_source : tensor2) (mdl : Model)
    (eval_batch_size : Z) :
  len2 data_source = 1 →
  0 ≤ nlayers args → 0 ≤ eval_batch_size → 0 ≤ nhid args →
  bptt args * world_size args ≠ 0 →
  Z.abs (world_size args) < 2 ^ 63 →
  evaluate forward criterion args data_source mdl eval_batch_size
  = Raise ZeroDivisionError.
Proof.
  intros Hrows Hl Hb Hh Hstep Hws.
  destruct (init_hidden_ok args eval_batch_size) as [hid Hhid]; [done..|].
  unfold evaluate. rewrite Hhid. cbn [mbind result_bind].
  unfold py_range. destruct (Z.eqb_spec (bptt args * world_size args) 0); [done|].
  cbn [mbind result_bind].
  edestruct (evaluate_loop_returns args data_source mdl) as [states ->]; [lia|].
  cbn [mbind result_bind]. rewrite Hrows.
  rewrite (py_float_of_int_small (world_size args)) by done.
  change (py_float_of_int (1 - 1)) with (Ok 0%float).
  cbn [mbind result_bind]. unfold py_truediv at 2.
  destruct (float_of_small (world_size args) =? 0)%float eqn:Hz; [done|].
  cbn [mbind result_bind]. unfold py_truediv.
  rewrite zero_div_number; [done|apply float_of_small_number|done].
Qed.

(** X11. A stream of exactly one row cannot be evaluated: the divisor
    [(rows - 1) / world_size] is zero and [evaluate] raises
    [ZeroDivisionError], for every model, rank and non-zero window and
    world size. *)
Theorem evaluate_one_row (args : Args) (data_source : tensor2) (mdl : Model)
    (eval_batch_size : Z) :
  len2 data_source = 1 →
  0 ≤ nlayers args → 0 ≤ eval_batch_size → 0 ≤ nhid args →
  bptt args * world_size args ≠ 0 →
  Z.abs (world_size args) < 2 ^ 63 →
  evaluate forward criterion args data_source mdl eval_batch_size
  = Raise ZeroDivisionError.
Proof. apply evaluate_divisor_zero. Qed.

(** X12. With a window size or a world size of 0 the stride of the
    offsets is 0: once the hidden state is allocated, [evaluate] raises
    [ValueError] ([range] refuses a zero step) before any window is
    sliced. *)
Theorem evaluate_zero_stride (args : Args) (data_source : tensor2) (mdl : Model)
    (eval_batch_size : Z) :
  bptt args = 0 ∨ world_size args = 0 →
  0 ≤ nlayers args → 0 ≤ eval_batch_size → 0 ≤ nhid args →
  evaluate forward criterion args data_source mdl eval_batch_size
  = Raise ValueError.
Proof.
  intros Hzero Hl Hb Hh.
  destruct (init_hidden_ok args eval_batch_size) as [hid Hhid]; [done..|].
  unfold evaluate. rewrite Hhid. cbn [mbind result_bind].
  unfold py_range. destruct (Z.eqb_spec (bptt args * world_size args) 0); [done|nia].
Qed.

(** X13. With [--bptt 0], [train] raises [ZeroDivisionError] when it
    scales the learning rate by [seq_len / args.bptt], as soon as the two
    draws have been made and converted: no step is taken, and the
    optimizer's rate has not been touched. *)
Theorem train_zero_window (args : Args) (w : world) (train_data : tensor2)
    (u x : float) (g0 g2 : Rng) (n : Z) :
  bptt args = 0 →
  np_random (gen w) = (u, g0) →
  np_normal (if (u <? 0.95)%float then 0%float else (0 / 2)%float) 5%float g0
  = (x, g2) →
  py_int x = Ok n →
  n < 2 ^ 63 →
  train forward sgd_step np_random np_normal args w train_data
  = Raise ZeroDivisionError.
Proof.
  intros HW Hu Hx Hint Hn. unfold train, draw_bptt, draw_seq_len.
  rewrite Hu, HW. change (py_float_of_int 0) with (Ok 0%float).
  cbn [mbind result_bind]. rewrite Hx, Hint. cbn [mbind result_bind].
  rewrite py_float_of_int_small by lia. done.
Qed.

End Edges.

Lemma evaluate_no_window_witness :
  evaluate log_forward (log_criterion loss_by_epoch)
    (MkArgs true 2 1 20%float 3 4 2 3 4) alphabet_stream (after_steps 6) 10
  = Ok 0%float.
Proof.
  destruct (init_hidden_ok (MkArgs true 2 1 20%float 3 4 2 3 4) 10) as [hid Hhid];
    [done..|].
  rewrite (evaluate_no_window log_forward (log_criterion loss_by_epoch)
             (MkArgs true 2 1 20%float 3 4 2 3 4) alphabet_stream 10 hid);
    [reflexivity|done|done|done|exact Hhid].
Defined.

Lemma evaluate_one_row_witness :
  evaluate log_forward (log_criterion loss_by_epoch) example_args
    (index_stream 1) (after_steps 6) 10
  = Raise ZeroDivisionError.
Proof.
  apply (evaluate_one_row log_forward (log_criterion loss_by_epoch)
           example_args (index_stream 1) (after_steps 6) 10);
    vm_compute; congruence.
Defined.

Lemma evaluate_zero_stride_witness :
  evaluate log_forward (log_criterion loss_by_epoch)
    (MkArgs true 2 1 20%float 3 4 0 0 1) alphabet_stream (after_steps 6) 10
  = Raise ValueError.
Proof.
  apply (evaluate_zero_stride log_forward (log_criterion loss_by_epoch)
           (MkArgs true 2 1 20%float 3 4 0 0 1) alphabet_stream (after_steps 6) 10);
    [by left|done..].
Defined.

Lemma train_zero_window_witness :
  train log_forward log_sgd_step tape_random tape_normal
    (MkArgs true 2 1 20%float 3 4 0 0 1)
    (World 20%float [0.5; 1]%float []) alphabet_stream
  = Raise ZeroDivisionError.
Proof.
  apply (train_zero_window log_forward log_sgd_step tape_random tape_normal
           (MkArgs true 2 1 20%float 3 4 0 0 1)
           (World 20%float [0.5; 1]%float []) alphabet_stream
           0.5%float 5%float [1%float] [] 5); [reflexivity..|lia].
Defined.

(** ** The checkpoint policy over any losses *)

Section PolicyFacts.
Context {Model Rng : Type}.
Implicit Types (c : controller (Model := Model))
  (w : world (Model := Model) (Rng := Rng)).

(** One epoch of the policy does one of two things. *)
Lemma checkpoint_or_anneal_cases (epoch : Z) (v : float) c w :
  (checkpoint_or_anneal epoch v (c, w)
   = (Controller (c_lr c) (Some v) (Some (net w)) (writes c ++ [epoch]), w))
  ∨ (is_Some (best_val_loss c)
     ∧ checkpoint_or_anneal epoch v (c, w)
       = (Controller (c_lr c / 4)%float (best_val_loss c) (save_file c) (writes c),
          World (c_lr c / 4)%float (gen w) (net w))).
Proof.
  unfold checkpoint_or_anneal.
  destruct (best_val_loss c) as [best|] eqn:Hb; [|by left].
  destruct (py_not_opt_float (Some best) || (v <? best)%float); [by left|right].
  split; [by eexists|done].
Qed.

Lemma annealed_succ (k : nat) (rate : float) :
  annealed (S k) rate = annealed k (rate / 4)%float.
Proof. exact (Nat.iter_succ_r k (fun x => (x / 4)%float) rate). Qed.

(** X14. Whatever the validation losses are, every epoch of the policy
    either writes the checkpoint or divides [lr] by 4, never both and never
    neither: after [k + 1] epochs of which [n] wrote the checkpoint, [lr]
    has been divided by 4 exactly [k + 1 - n] times.  The optimizer's rate,
    equal to [lr] at the start, is equal to [lr] after every epoch; the
    writes are at epochs of the run, and the first epoch writes when no
    best loss is known yet. *)
Theorem run_policy_accounting (losses : list float) :
  ∀ (epoch : Z) c w (k : nat) (st : controller * world),
    opt_lr w = c_lr c →
    run_policy epoch losses (c, w) !! k = Some st →
    ∃ new : list Z,
      writes (fst st) = writes c ++ new
      ∧ (length new ≤ S k)%nat
      ∧ c_lr (fst st) = annealed (S k - length new) (c_lr c)
      ∧ opt_lr (snd st) = c_lr (fst st)
      ∧ Forall (fun e => epoch ≤ e ≤ epoch + Z.of_nat k) new
      ∧ (best_val_loss c = None → head new = Some epoch)
      ∧ is_Some (best_val_loss (fst st)).
Proof.
  induction losses as [|v losses IH]; intros epoch c w k st Hsync Hst; [done|].
  cbn [run_policy] in Hst.
  destruct (checkpoint_or_anneal_cases epoch v c w) as [Hstep|[Hbest Hstep]];
    rewrite Hstep in Hst; clear Hstep.
  - destruct k as [|k].
    + injection Hst as <-. exists [epoch]. cbn [fst snd writes c_lr length].
      repeat split; try done; try (by eexists).
      all: try (constructor; [lia|constructor]).
    + cbn [lookup list_lookup] in Hst.
      apply IH in Hst as (new & Hwr & Hlen & Hlr & Hopt & Hall & _ & Hsome); [|done].
      cbn [writes c_lr] in *. exists (epoch :: new).
      split; [by rewrite Hwr, <-app_assoc|].
      cbn [length]. split; [lia|]. split; [by rewrite Hlr|].
      split; [done|]. split; [|done].
      constructor; [lia|]. eapply Forall_impl; [exact Hall|]. intros e He. simpl in He. lia.
  - destruct k as [|k].
    + injection Hst as <-. exists []. cbn [fst snd writes c_lr opt_lr length].
      rewrite app_nil_r. repeat split; try done; [lia|].
      intros Hnone. rewrite Hnone in Hbest. by destruct Hbest.
    + cbn [lookup list_lookup] in Hst.
      apply IH in Hst as (new & Hwr & Hlen & Hlr & Hopt & Hall & _ & Hsome); [|done].
      cbn [writes c_lr] in *. exists new.
      split; [done|]. split; [lia|].
      split.
      { rewrite Hlr, <-annealed_succ. f_equal. lia. }
      split; [done|]. split.
      { eapply Forall_impl; [exact Hall|]. intros e He. simpl in He. lia. }
      split; [|done].
      intros Hnone. rewrite Hnone in Hbest. by destruct Hbest.
Qed.

(** A NaN compares below nothing, above nothing, and is not 0.0. *)
Lemma is_nan_spec (v : float) : is_nan v = true → Prim2SF v = S754_nan.
Proof.
  unfold is_nan. rewrite FloatAxioms.eqb_spec. unfold SFeqb. intros H.
  destruct (Prim2SF v) as [s|s| |s m e] eqn:Hv; [..|done|];
    rewrite SFcompare_refl in H; done.
Qed.

Lemma nan_comparisons (v x : float) :
  is_nan v = true → (x <? v)%float = false ∧ (v =? 0)%float = false.
Proof.
  intros Hnan%is_nan_spec. rewrite ltb_spec, FloatAxioms.eqb_spec, Hnan.
  unfold SFltb, SFeqb. split; [by destruct (Prim2SF x)|done].
Qed.

(** X15. A NaN validation loss in the first epoch is checkpointed and
    becomes the best-so-far; from then on no validation loss compares
    below it, so the checkpoint is never written again and [lr] is divided
    by 4 at every later epoch. *)
Theorem run_policy_nan_first (v : float) (losses : list float) :
  is_nan v = true →
  ∀ (epoch : Z) c w,
    best_val_loss c = None →
    ∀ (k : nat) (st : controller * world),
      run_policy epoch (v :: losses) (c, w) !! k = Some st →
      writes (fst st) = writes c ++ [epoch]
      ∧ best_val_loss (fst st) = Some v
      ∧ c_lr (fst st) = annealed k (c_lr c).
Proof.
  intros Hnan epoch c w Hnone k st Hst.
  cbn [run_policy] in Hst.
  rewrite checkpoint_branch in Hst by (left; by rewrite Hnone).
  destruct k as [|k].
  - by injection Hst as <-.
  - cbn [lookup list_lookup] in Hst.
    eapply (run_policy_anneals losses v) in Hst as (Hwr & Hlr & _ & Hb).
    + done.
    + by apply (nan_comparisons v 0%float).
    + apply Forall_forall. intros x _. by apply nan_comparisons.
    + done.
Qed.
End PolicyFacts.

Lemma run_policy_accounting_witness :
  ∃ new : list Z,
    [1; 2] = [] ++ new
    ∧ (length new ≤ 3)%nat
    ∧ 5%float = annealed (3 - length new) 20%float.
Proof.
  destruct (run_policy_accounting (Model := unit) (Rng := unit) [0; 1; 2]%float 1
              (Controller 20%float None None []) (World 20%float tt tt) 2
              (Controller 5%float (Some 1%float) (Some tt) [1; 2], World 5%float tt tt))
    as (new & Hwr & Hlen & Hlr & _); [reflexivity|reflexivity|].
  exists new. split; [exact Hwr|]. split; [exact Hlen|exact Hlr].
Defined.

Lemma run_policy_nan_first_witness :
  policy_outcome <$> run_policy 1 [nan; 3; 2]%float
    (Controller 20%float None None [], World 20%float tt tt)
  = [([1], 20%float, 20%float); ([1], 5%float, 5%float);
     ([1], 1.25%float, 1.25%float)]
  ∧ writes (Controller (Model := unit) 1.25%float (Some nan) (Some tt) [1]) = [] ++ [1].
Proof.
  split; [reflexivity|].
  apply (run_policy_nan_first (Model := unit) (Rng := unit) nan [3; 2]%float eq_refl 1
           (Controller 20%float None None []) (World 20%float tt tt) eq_refl 2
           (Controller 1.25%float (Some nan) (Some tt) [1], World 1.25%float tt tt)).
  reflexivity.
Defined.

Lemma run_policy_decreasing_witness :
  c_lr (Controller (Model := unit) 20%float (Some 1%float) (Some tt) [1; 2; 3]) = 20%float
  ∧ [1; 2; 3] = [] ++ seqZ 1 3.
Proof.
  destruct (run_policy_decreasing (Model := unit) (Rng := unit) [3; 2; 1]%float)
    with (epoch := 1) (c := Controller (Model := unit) 20%float None None [])
         (w := World (Model := unit) 20%float tt tt) (k := 2%nat)
         (st := (Controller 20%float (Some 1%float) (Some tt) [1; 2; 3],
                 World 20%float tt tt))
    as (Hlr & _ & Hwr & _).
  - intros [|[|[|k]]] a b Ha Hb; simpl in *; try discriminate;
      injection Ha as <-; injection Hb as <-; reflexivity.
  - exact I.
  - reflexivity.
  - split; [exact Hlr|exact Hwr].
Defined.

Lemma run_policy_increasing_witness :
  writes (Controller (Model := unit) 1.25%float (Some 3%float) (Some tt) [1]) = [] ++ [1]
  ∧ 1.25%float = annealed 2 20%float.
Proof.
  destruct (run_policy_increasing (Model := unit) (Rng := unit) 3%float [4; 5]%float)
    with (epoch := 1) (c := Controller (Model := unit) 20%float None None [])
         (w := World (Model := unit) 20%float tt tt) (k := 2%nat)
         (st := (Controller 1.25%float (Some 3%float) (Some tt) [1],
                 World 1.25%float tt tt))
    as (Hwr & Hlr & _).
  - intros [|[|[|k]]] a b Ha Hb; simpl in *; try discriminate;
      injection Ha as <-; injection Hb as <-; reflexivity.
  - reflexivity.
  - reflexivity.
  - reflexivity.
  - split; [exact Hwr|exact Hlr].
Defined.

(** ** The epoch loop as a whole *)

(** An invariant that counts the iterations. *)
Lemma for_each_indexed {S : Type} (body : S → Z → result S)
    (offsets : list Z) :
  ∀ (P : nat → S → Prop) (s : S) (states : list S),
    (∀ j s i s', offsets !! j = Some i → P j s → body s i = Ok s' → P (Datatypes.S j) s') →
    P 0%nat s →
    for_each body s offsets = Ok states →
    P (length offsets) (List.last states s).
Proof.
  induction offsets as [|i offsets IH]; intros P s states Hbody Hs H.
  - by injection H as <-.
  - cbn [for_each] in H. bind_ok H as s1 E1. bind_ok H as rest E2. injection H as <-.
    assert (P 1%nat s1) as Hs1 by (by apply (Hbody 0%nat s i s1)).
    pose proof (IH (fun j => P (Datatypes.S j)) s1 rest) as Hrest.
    cbn [length].
    destruct rest as [|s2 rest].
    + apply for_each_length in E2. destruct offsets; [exact Hs1|discriminate E2].
    + change (P (Datatypes.S (length offsets)) (List.last (s2 :: rest) s)).
      rewrite (last_nonempty _ _ s1). apply Hrest; [|done|done].
      intros j s' i' s'' Hj. by apply (Hbody (Datatypes.S j)).
Qed.

Section MainFacts.
Context {Model Output Rng : Type}.
Variable forward : Model → bool → tensor2 → hidden → Output * hidden.
Variable criterion : Output → tensor1 → float.
Variable sgd_step : Model → float → tensor2 → hidden → tensor1 → Model.
Variable np_random : Rng → float * Rng.
Variable np_normal : float → float → Rng → float * Rng.

#[local] Abbreviation one_epoch :=
  (epoch_body forward criterion sgd_step np_random np_normal).

(** What an epoch that completed went through. *)
Lemma epoch_body_inv (args : Args) (train_data val_data : tensor2)
    (eval_batch_size epoch : Z) (c : controller) (w : world)
    (st' : controller * world) :
  one_epoch args train_data val_data eval_batch_size (c, w) epoch = Ok st' →
  ∃ (w1 : world) (v : float),
    opt_lr w1 = opt_lr w
    ∧ evaluate forward criterion args val_data (net w1) eval_batch_size = Ok v
    ∧ st' = checkpoint_or_anneal epoch v (c, w1).
Proof.
  unfold epoch_body. intros H. bind_ok H as [w1 states] E1.
  bind_ok H as v E2. injection H as <-.
  exists w1, v. split; [|done].
  apply train_inv in E1
    as (? & ? & ? & ? & ? & ? & ? & ? & ? & ? & _ & _ & _ & _ & _ & _ & _ & _ & _ & ->).
  done.
Qed.

(** X18. A run of the epoch loop that completes at least one epoch has
    written the checkpoint at epoch 1 (the first epoch always saves), so a
    checkpoint and a best loss exist at the end.  All writes are at epochs
    of the run, [lr] has been divided by 4 once for every epoch that did
    not write, and the optimizer's rate at the end is [lr]: [train] has put
    it back after every epoch. *)
Theorem main_loop_outcome (args : Args) (train_data val_data : tensor2)
    (g : Rng) (mdl : Model) (c : controller) (w : world) :
  1 ≤ epochs args →
  main_loop forward criterion sgd_step np_random np_normal
    args train_data val_data g mdl = Ok (c, w) →
  head (writes c) = Some 1
  ∧ is_Some (save_file c)
  ∧ is_Some (best_val_loss c)
  ∧ Forall (fun e => 1 ≤ e ≤ epochs args) (writes c)
  ∧ (length (writes c) ≤ Z.to_nat (epochs args))%nat
  ∧ c_lr c = annealed (Z.to_nat (epochs args) - length (writes c)) (lr args)
  ∧ opt_lr w = c_lr c.
Proof.
  intros Hepochs H. unfold main_loop in H.
  rewrite py_range_pos in H by lia. cbn [mbind result_bind] in H.
  bind_ok H as states E. injection H as H.
  set (offsets := (fun k => 1 + k * 1) <$> seqZ 0 (range_length 1 (epochs args + 1) 1)) in *.
  assert (length offsets = Z.to_nat (epochs args)) as Hlen.
  { unfold offsets, range_length. rewrite length_fmap, length_seqZ.
    destruct (Z.ltb_spec 1 (epochs args + 1)); [|lia].
    rewrite Z.div_1_r. lia. }
  pose (P := fun (j : nat)
      (st : controller (Model := Model) * world (Model := Model) (Rng := Rng)) =>
    opt_lr (snd st) = c_lr (fst st)
    ∧ (length (writes (fst st)) ≤ j)%nat
    ∧ c_lr (fst st) = annealed (j - length (writes (fst st))) (lr args)
    ∧ Forall (fun e => 1 ≤ e ≤ Z.of_nat j) (writes (fst st))
    ∧ (j = 0%nat → best_val_loss (fst st) = None ∧ writes (fst st) = [])
    ∧ ((0 < j)%nat → head (writes (fst st)) = Some 1
                     ∧ is_Some (save_file (fst st))
                     ∧ is_Some (best_val_loss (fst st)))).
  assert (P (length offsets) (List.last states
            (Controller (lr args) None None [], World (lr args) g mdl))) as HP.
  { apply (for_each_indexed (one_epoch args train_data val_data 10) offsets P _ states);
      [|by (repeat split; try done; lia)|exact E].
    clear E H states c w. intros j [c w] i st' Hi (Hsync & Hle & Hlr & Hall & H0 & Hpos) Hbody.
    cbn [fst snd] in *.
    assert (i = Z.of_nat j + 1) as ->.
    { unfold offsets in Hi. rewrite list_lookup_fmap in Hi.
      destruct (seqZ 0 _ !! j) as [k|] eqn:Hk; [|done].
      apply lookup_seqZ in Hk as [-> _]. injection Hi as <-. lia. }
    apply epoch_body_inv in Hbody as (w1 & v & Hopt & _ & ->).
    destruct (checkpoint_or_anneal_cases (Z.of_nat j + 1) v c w1)
      as [->|[Hbest ->]]; unfold P; cbn [fst snd writes c_lr opt_lr best_val_loss save_file].
    - rewrite length_app. cbn [length].
      split; [congruence|]. split; [lia|].
      split; [rewrite Hlr; f_equal; lia|].
      split.
      { apply Forall_app. split; [|repeat constructor; lia].
        eapply Forall_impl; [exact Hall|]. intros e He. simpl in He. lia. }
      split; [lia|]. intros _. split; [|split; by eexists].
      destruct j as [|j].
      + destruct H0 as [_ ->]; done.
      + destruct Hpos as (Hhead & _); [lia|].
        destruct (writes c); [done|]. done.
    - assert (0 < j)%nat as Hj.
      { destruct j; [|lia]. destruct H0 as [Hnone _]; [done|].
        rewrite Hnone in Hbest. by destruct Hbest. }
      split; [done|]. split; [lia|].
      split.
      { rewrite Hlr. replace (S j - length (writes c))%nat
          with (S (j - length (writes c))) by lia. done. }
      split.
      { eapply Forall_impl; [exact Hall|]. intros e He. simpl in He. lia. }
      split; [lia|]. intros _. by apply Hpos. }
  rewrite H, Hlen in HP. destruct HP as (Hsync & Hle & Hlr & Hall & _ & Hpos).
  cbn [fst snd] in *. destruct Hpos as (Hhead & Hsave & Hbest); [lia|].
  repeat split; try done.
  eapply Forall_impl; [exact Hall|]. intros e He. simpl in He. lia.
Qed.
End MainFacts.

Lemma main_loop_outcome_witness :
  ∃ c w,
    rising_loss_run = Ok (c, w)
    ∧ head (writes c) = Some 1
    ∧ c_lr c = annealed (3 - length (writes c)) 20%float
    ∧ opt_lr w = c_lr c.
Proof.
  assert (∃ c w, rising_loss_run = Ok (c, w)) as (c & w & E) by (vm_compute; eauto).
  exists c, w. split; [exact E|].
  destruct (main_loop_outcome _ _ _ _ _ example_args alphabet_stream alphabet_stream
              _ _ c w ltac:(done) E)
    as (Hhead & _ & _ & _ & _ & Hlr & Hopt).
  split; [exact Hhead|]. split; [exact Hlr|exact Hopt].
Defined.

(** ** [main] *)

Section ProgramFacts.
Context {Model Output Rng : Type}.
Variable forward : Model → bool → tensor2 → hidden → Output * hidden.
Variable criterion : Output → tensor1 → float.
Variable sgd_step : Model → float → tensor2 → hidden → tensor1 → Model.
Variable np_random : Rng → float * Rng.
Variable np_normal : float → float → Rng → float * Rng.

End ProgramFacts.


Example main_short_validation_error :
  main log_forward (log_criterion loss_by_epoch) log_sgd_step
    tape_random tape_normal example_args
    (seqZ 0 24) (seqZ 0 15) (seqZ 0 40) [0.5; 1]%float []
  = Raise ZeroDivisionError.
Proof. vm_compute. reflexivity. Qed.
